(** * data2json-api: schema synthesis, validation, retry and metering

    A shallow embedding of [lib/RetryableResponse.ts] and of [server.ts]:
    the type inferencer, the schema synthesizer and the [/v1] handler, in
    the revision of the handler that checks the caller's credits before it
    calls the generator.  The valibot schemas the server builds are
    embedded with the validation they perform.  The second part states and
    proves the properties of the specification. *)

From Stdlib Require Import ZArith List String Ascii Bool Lia Arith.
From Stdlib Require Import DecimalString.
From Equations Require Import Equations.
Import ListNotations.
Local Open Scope string_scope.
Local Open Scope Z_scope.

Set Implicit Arguments.

(* ===================================================================== *)
(** ** JavaScript values *)
(* ===================================================================== *)

(** A JavaScript number.  The handler only compares and subtracts token
    counts and credits, so the finite numbers are integers here; [NaN] is
    what unary plus returns on a string that is not numeric. *)
Inductive number : Type :=
| NaN
| Num (z : Z).

(** [a > b] on numbers: false as soon as one side is [NaN]. *)
Definition number_gt (a b : number) : bool :=
  match a, b with
  | Num x, Num y => x >? y
  | _, _ => false
  end.

Definition number_sub (a b : number) : number :=
  match a, b with
  | Num x, Num y => Num (x - y)
  | _, _ => NaN
  end.

(** The values the handler sees: what [JSON.parse] builds, and [undefined].
    An object is the list of its own properties in enumeration order; the
    prototype chain is not part of the model, apart from the one inherited
    method the code calls, [hasOwnProperty]. *)
Unset Elimination Schemes.
Inductive value : Type :=
| VUndefined
| VNull
| VBool (b : bool)
| VNum (n : number)
| VStr (s : string)
| VArr (items : list value)
| VObj (fields : list (string * value)).
Set Elimination Schemes.

Section ValueInduction.
Variable P : value -> Prop.
Hypothesis Hundef : P VUndefined.
Hypothesis Hnull : P VNull.
Hypothesis Hbool : forall b, P (VBool b).
Hypothesis Hnum : forall n, P (VNum n).
Hypothesis Hstr : forall s, P (VStr s).
Hypothesis Harr : forall items, (forall x, In x items -> P x) -> P (VArr items).
Hypothesis Hobj :
  forall fields, (forall k x, In (k, x) fields -> P x) -> P (VObj fields).

Fixpoint value_induction (v : value) : P v :=
  match v with
  | VUndefined => Hundef
  | VNull => Hnull
  | VBool b => Hbool b
  | VNum n => Hnum n
  | VStr s => Hstr s
  | VArr items =>
      Harr items
        ((fix all (l : list value) : forall x, In x l -> P x :=
            match l with
            | [] => fun _ (H : In _ []) => match H with end
            | y :: r => fun x (H : In x (y :: r)) =>
                match H with
                | or_introl e => eq_ind y P (value_induction y) x e
                | or_intror i => all r x i
                end
            end) items)
  | VObj fields =>
      Hobj fields
        ((fix all (l : list (string * value))
            : forall k x, In (k, x) l -> P x :=
            match l with
            | [] => fun _ _ (H : In _ []) => match H with end
            | y :: r => fun k x (H : In (k, x) (y :: r)) =>
                match H with
                | or_introl e =>
                    eq_ind (snd y) P (value_induction (snd y)) x
                      (f_equal snd e)
                | or_intror i => all r k x i
                end
            end) fields)
  end.
End ValueInduction.

(** [typeof v] *)
Definition typeof (v : value) : string :=
  match v with
  | VUndefined => "undefined"
  | VNull => "object"
  | VBool _ => "boolean"
  | VNum _ => "number"
  | VStr _ => "string"
  | VArr _ => "object"
  | VObj _ => "object"
  end.

(** [Array.isArray(v)] *)
Definition isArray (v : value) : bool :=
  match v with
  | VArr _ => true
  | _ => false
  end.

(** Own property of an object by name, [undefined] when there is none. *)
Fixpoint assoc (key : string) (fields : list (string * value)) : value :=
  match fields with
  | [] => VUndefined
  | (k, x) :: rest => if String.eqb k key then x else assoc key rest
  end.

Definition has_key (key : string) (fields : list (string * value)) : bool :=
  existsb (fun kx => String.eqb (fst kx) key) fields.

(** The property name of an array index: its decimal numeral. *)
Definition index_key (i : nat) : string :=
  NilZero.string_of_uint (Nat.to_uint i).

Fixpoint index_fields (i : nat) (items : list value) : list (string * value) :=
  match items with
  | [] => []
  | x :: rest => (index_key i, x) :: index_fields (S i) rest
  end.

(** [v[key]] for a string key, on the values a validator reads from:
    an object's own property, an array's element or its length. *)
Definition get (v : value) (key : string) : value :=
  match v with
  | VObj fields => assoc key fields
  | VArr items =>
      if String.eqb key "length" then VNum (Num (Z.of_nat (List.length items)))
      else assoc key (index_fields 0 items)
  | _ => VUndefined
  end.

(** What a thrown exception carries.  An issue of a [ValiError] keeps the
    key of the first item of its path, when it has one, and what its
    message reports. *)
Inductive path_key : Type :=
| KeyName (name : string)
| KeyIndex (i : nat).

Record issue : Type := Issue {
  issue_path0 : option path_key;
  issue_expected : string;
  issue_received : value
}.

Inductive exn : Type :=
| TypeError
| SyntaxError
| ValiError (issues : list issue)
| APIError.

(** The result of an expression that may throw. *)
Inductive thrown (A : Type) : Type :=
| Returns (a : A)
| Throws (e : exn).
Arguments Returns {A} a.
Arguments Throws {A} e.

Definition bind_thrown {A B} (m : thrown A) (k : A -> thrown B) : thrown B :=
  match m with
  | Returns a => k a
  | Throws e => Throws e
  end.

Declare Scope thrown_scope.
Delimit Scope thrown_scope with thrown.
Notation "x <- m ;; k" := (bind_thrown m (fun x => k))
  (at level 61, m at next level, right associativity) : thrown_scope.
Local Open Scope thrown_scope.

(* ===================================================================== *)
(** ** The Type Inferencer *)
(* ===================================================================== *)

Definition types : list string :=
  ["object"; "array"; "string"; "boolean"; "number"].

(** [types.includes(x)]: only a string can be the same value as a member. *)
Definition types_includes (x : value) : bool :=
  match x with
  | VStr s => existsb (String.eqb s) types
  | _ => false
  end.

(** [schema?.hasOwnProperty("type")].  On [undefined] and [null] the
    optional chain stops with [undefined].  On an object with an own
    property named [hasOwnProperty] that property is what gets called, and
    no JSON value is callable. *)
Definition hasOwnProperty_type (schema : value) : thrown bool :=
  match schema with
  | VObj fields =>
      if has_key "hasOwnProperty" fields then Throws TypeError
      else Returns (has_key "type" fields)
  | _ => Returns false
  end.

Definition inferDataType (schema : value) : thrown string :=
  marked <- hasOwnProperty_type schema ;;
  if negb marked then
    Returns (if isArray schema then "array" else typeof schema)
  else
    match get schema "type" with
    | VStr s => Returns (if types_includes (VStr s) then s else "object")
    | _ => Returns "object"
    end.

(* ===================================================================== *)
(** ** valibot schemas *)
(* ===================================================================== *)

(** The schemas of the valibot library that the server builds.  The two
    bounds of [string_] are the [minLength] and [maxLength] actions piped
    after [string()].

    The [entries] of [object] and [looseObject] stand for the JavaScript
    object handed to the library.  An assignment [shape[key] = s] creates
    an own property for every [key] but ["__proto__"]: that one calls the
    setter of [Object.prototype] and makes [s] the prototype of [shape].
    So in [entries] the name ["__proto__"] is never an own entry: a pair
    under that name records the prototype that was installed (see
    [has_prototype] and [run]). *)
Unset Elimination Schemes.
Inductive Schema : Type :=
| string_ (minLength maxLength : option nat)
| boolean_
| number_
| nullable (wrapped : Schema)
| array (item : Schema)
| object (entries : list (string * Schema))
| looseObject (entries : list (string * Schema)).
Set Elimination Schemes.

(* ===================================================================== *)
(** ** The Schema Synthesizer *)
(* ===================================================================== *)

(** The assignment [shape[key] = child].  For every key but
    ["__proto__"] it defines an own property of [shape].  Under
    ["__proto__"] it calls the setter [shape] inherits: [child] becomes
    the prototype of [shape] and no own property is defined.  That pair is
    kept under the reserved name, which no own property of [shape] can
    bear; [has_prototype] reads it back, and [run] treats such a shape as
    the library does. *)
Definition assign (key : string) (child : Schema)
    (shape : list (string * Schema)) : list (string * Schema) :=
  (key, child) :: shape.
Arguments assign _ _ _ /.

Section Walk.
Variable synthesize : value -> thrown Schema.

(** The loop [for (const key in schema) if (key !== "type")
    shape[key] = generateDynamicSchema(schema[key])] over the own
    properties of an object (["__proto__"] is one of them in an object
    that [JSON.parse] built). *)
Fixpoint for_in_shape (fields : list (string * value))
  : thrown (list (string * Schema)) :=
  match fields with
  | [] => Returns []
  | (key, x) :: rest =>
      if String.eqb key "type" then for_in_shape rest
      else
        child <- synthesize x ;;
        shape <- for_in_shape rest ;;
        Returns (assign key child shape)
  end.

(** [generateDynamicSchema(schema[0])] on an object: its property ["0"]
    when it has one, else [undefined]. *)
Fixpoint at_property_0 (at_undefined : thrown Schema)
    (fields : list (string * value)) : thrown Schema :=
  match fields with
  | [] => at_undefined
  | (key, x) :: rest =>
      if String.eqb key "0" then synthesize x
      else at_property_0 at_undefined rest
  end.
End Walk.

(** The cases of the [switch] that do not recurse, [default] included. *)
Definition leaf_schema (type : string) : Schema :=
  if String.eqb type "string" then nullable (string_ None None)
  else if String.eqb type "boolean" then nullable boolean_
  else if String.eqb type "number" then nullable number_
  else nullable (string_ None None).

Fixpoint generateDynamicSchema (schema : value) : thrown Schema :=
  type <- inferDataType schema ;;
  if String.eqb type "object" then
    match schema with
    | VObj fields =>
        shape <- for_in_shape generateDynamicSchema fields ;;
        Returns (object shape)
    | _ => Returns (object [])
    end
  else if String.eqb type "array" then
    item <- match schema with
            | VArr (first :: _) => generateDynamicSchema first
            | VObj fields =>
                at_property_0 generateDynamicSchema
                  (Returns (leaf_schema "undefined")) fields
            | _ => Returns (leaf_schema "undefined")
            end ;;
    Returns (array item)
  else Returns (leaf_schema type).

(* ===================================================================== *)
(** ** valibot validation *)
(* ===================================================================== *)

(** What running a schema on an input leaves in the dataset: the typed
    output, or the issues found.  [Crashes] is the run that does not come
    back: the library calls the run method of an entry that is not a
    schema, which throws a [TypeError]. *)
Inductive dataset : Type :=
| Typed (output : value)
| Issues (issues : list issue)
| Crashes.

(** [input && typeof input === "object"] *)
Definition is_object_like (input : value) : bool :=
  match input with
  | VArr _ | VObj _ => true
  | _ => false
  end.

(** A parent schema puts its own path item in front of a child's issue. *)
Definition under (key : path_key) (i : issue) : issue :=
  Issue (Some key) (issue_expected i) (issue_received i).

Definition own_keys (input : value) : list (string * value) :=
  match input with
  | VObj fields => fields
  | VArr items => index_fields 0 items
  | _ => []
  end.

Definition violates (bound : option nat) (cmp : nat -> nat -> bool)
    (len : nat) : bool :=
  match bound with
  | Some b => negb (cmp b len)
  | None => false
  end.

(** The names every object inherits from [Object.prototype]: the keys
    for which [key in {}] holds. *)
Definition Object_prototype_names : list string :=
  ["constructor"; "__defineGetter__"; "__defineSetter__"; "hasOwnProperty";
   "__lookupGetter__"; "__lookupSetter__"; "isPrototypeOf";
   "propertyIsEnumerable"; "toString"; "valueOf"; "__proto__";
   "toLocaleString"].

(** The library's [_isValidObjectKey(input, key)] for an own key of
    [input]. *)
Definition is_valid_object_key (key : string) : bool :=
  negb (String.eqb key "__proto__" || String.eqb key "prototype"
        || String.eqb key "constructor").

(** [key in this.entries]: an own entry, or a name the entries object
    inherits. *)
Definition in_entries (key : string) (entries : list (string * Schema))
  : bool :=
  existsb (fun e => String.eqb (fst e) key) entries
  || existsb (String.eqb key) Object_prototype_names.

(** Whether an assignment under ["__proto__"] gave the entries object a
    schema as its prototype. *)
Definition has_prototype (entries : list (string * Schema)) : bool :=
  existsb (fun e => String.eqb (fst e) "__proto__") entries.

(** [looseObject] copies the own keys of the input that are valid and not
    [in] its entries. *)
Definition loose_rest (entries : list (string * Schema)) (input : value)
  : list (string * value) :=
  filter (fun kx => is_valid_object_key (fst kx)
                    && negb (in_entries (fst kx) entries))
         (own_keys input).

Section Entries.
Variable run : Schema -> value -> dataset.

(** [for (const key in this.entries)] over the own entries: every entry
    is run on [input[key]]; outputs and issues are both collected.  [None]
    when one of the runs crashes. *)
Fixpoint run_entries (entries : list (string * Schema)) (input : value)
  : option (list (string * value) * list issue) :=
  match entries with
  | [] => Some ([], [])
  | (key, s) :: rest =>
      match run s (get input key), run_entries rest input with
      | Crashes, _ | _, None => None
      | Typed out, Some (outs, issues) => Some ((key, out) :: outs, issues)
      | Issues found, Some (outs, issues) =>
          Some (outs, (map (under (KeyName key)) found ++ issues)%list)
      end
  end.

(** The items of an array, each run against the item schema. *)
Fixpoint run_items (item : Schema) (i : nat) (items : list value)
  : option (list value * list issue) :=
  match items with
  | [] => Some ([], [])
  | x :: rest =>
      match run item x, run_items item (S i) rest with
      | Crashes, _ | _, None => None
      | Typed out, Some (outs, issues) => Some (out :: outs, issues)
      | Issues found, Some (outs, issues) =>
          Some (outs, (map (under (KeyIndex i)) found ++ issues)%list)
      end
  end.
End Entries.

Definition settle (output : value) (issues : list issue) : dataset :=
  match issues with
  | [] => Typed output
  | _ => Issues issues
  end.

(** The dataset of a schema with children, from what its loop
    collected. *)
Definition collect (A : Type) (wrap : A -> value)
    (collected : option (A * list issue)) : dataset :=
  match collected with
  | Some (outs, issues) => settle (wrap outs) issues
  | None => Crashes
  end.

Fixpoint run (schema : Schema) (input : value) {struct schema} : dataset :=
  match schema with
  | string_ lo hi =>
      match input with
      | VStr s =>
          let len := String.length s in
          settle input
            ((if violates lo Nat.leb len then [Issue None "minLength" input]
              else []) ++
             (if violates hi (fun b l => Nat.leb l b) len
              then [Issue None "maxLength" input] else []))%list
      | _ => Issues [Issue None "string" input]
      end
  | boolean_ =>
      match input with
      | VBool _ => Typed input
      | _ => Issues [Issue None "boolean" input]
      end
  | number_ =>
      match input with
      | VNum (Num _) => Typed input
      | _ => Issues [Issue None "number" input]
      end
  | nullable wrapped =>
      match input with
      | VNull => Typed VNull
      | _ => run wrapped input
      end
  | array item =>
      match input with
      | VArr items => collect VArr (run_items run item 0 items)
      | _ => Issues [Issue None "Array" input]
      end
  | object entries =>
      if is_object_like input then
        (* [for (const key in this.entries)] also reaches the enumerable
           properties of a prototype installed under ["__proto__"]; they
           are the fields of a schema object, not schemas. *)
        if has_prototype entries then Crashes
        else collect (fun outs => VObj outs) (run_entries run entries input)
      else Issues [Issue None "Object" input]
  | looseObject entries =>
      if is_object_like input then
        if has_prototype entries then Crashes
        else
          collect (fun outs => VObj (outs ++ loose_rest entries input)%list)
                  (run_entries run entries input)
      else Issues [Issue None "Object" input]
  end.

(** [parse(schema, input)] *)
Definition parse (schema : Schema) (input : value) : thrown value :=
  match run schema input with
  | Typed output => Returns output
  | Issues issues => Throws (ValiError issues)
  | Crashes => Throws TypeError
  end.

(* ===================================================================== *)
(** ** Shapes of templates and documents *)
(* ===================================================================== *)

(** [schema?.[0]]: the first element of an array, the property ["0"] of an
    object. *)
Definition index0 (schema : value) : value :=
  match schema with
  | VArr (first :: _) => first
  | VObj fields => assoc "0" fields
  | _ => VUndefined
  end.

(** Whether calling [hasOwnProperty] on the node reaches an own property of
    that name instead of the inherited method. *)
Definition shadows_hasOwnProperty (node : value) : bool :=
  match node with
  | VObj fields => has_key "hasOwnProperty" fields
  | _ => false
  end.

(** The node has no own ["type"] property. *)
Definition unmarked (node : value) : bool :=
  match node with
  | VObj fields => negb (has_key "type" fields)
  | _ => true
  end.

(** Plain data, as [JSON.parse] builds it: the keys of an object are
    pairwise distinct.  The key [__proto__] is left out as well: assigning
    [shape["__proto__"]] replaces the prototype of [shape] instead of adding
    an entry, which the entry lists of this model do not express. *)
Fixpoint distinct_keys (seen : list string) (keys : list string) : bool :=
  match keys with
  | [] => true
  | k :: rest =>
      negb (existsb (String.eqb k) seen) && distinct_keys (k :: seen) rest
  end.

Fixpoint plain (v : value) : bool :=
  match v with
  | VArr items => forallb plain items
  | VObj fields =>
      distinct_keys ["__proto__"] (map fst fields)
      && forallb (fun kx => plain (snd kx)) fields
  | _ => true
  end.

(** Two templates that differ in their leaf values only: the same tree, and
    the same inferred kind at every node. *)
Definition same_kind (a b : value) : bool :=
  match inferDataType a, inferDataType b with
  | Returns x, Returns y => String.eqb x y
  | Throws _, Throws _ => true
  | _, _ => false
  end.

Section Pairwise.
Variable same : value -> value -> bool.

Fixpoint same_items (xs ys : list value) : bool :=
  match xs, ys with
  | [], [] => true
  | x :: xs', y :: ys' => same x y && same_items xs' ys'
  | _, _ => false
  end.

Fixpoint same_fields (xs ys : list (string * value)) : bool :=
  match xs, ys with
  | [], [] => true
  | (k, x) :: xs', (l, y) :: ys' =>
      String.eqb k l && same x y && same_fields xs' ys'
  | _, _ => false
  end.
End Pairwise.

Fixpoint same_shape (a b : value) : bool :=
  same_kind a b &&
  match a, b with
  | VUndefined, VUndefined => true
  | VNull, VNull => true
  | VBool _, VBool _ => true
  | VNum _, VNum _ => true
  | VStr _, VStr _ => true
  | VArr xs, VArr ys => same_items same_shape xs ys
  | VObj xs, VObj ys => same_fields same_shape xs ys
  | _, _ => false
  end.

(** The document that follows a template as the synthesizer reads it, with
    [null] wherever a primitive is inferred: an object with the same fields
    where an object is inferred, and [n] items shaped after [schema[0]]
    where an array is inferred. *)
Section NullWalk.
Variable null_at : value -> value.

Fixpoint null_fields (fields : list (string * value))
  : list (string * value) :=
  match fields with
  | [] => []
  | (key, x) :: rest =>
      if String.eqb key "type" then null_fields rest
      else (key, null_at x) :: null_fields rest
  end.

Fixpoint null_property_0 (fields : list (string * value)) : value :=
  match fields with
  | [] => VNull
  | (key, x) :: rest =>
      if String.eqb key "0" then null_at x else null_property_0 rest
  end.
End NullWalk.

Fixpoint null_document (n : nat) (template : value) : value :=
  match inferDataType template with
  | Throws _ => VUndefined
  | Returns type =>
      if String.eqb type "object" then
        match template with
        | VObj fields => VObj (null_fields (null_document n) fields)
        | _ => VObj []
        end
      else if String.eqb type "array" then
        VArr (repeat
                match template with
                | VArr (first :: _) => null_document n first
                | VObj fields => null_property_0 (null_document n) fields
                | _ => VNull
                end n)
      else VNull
  end.

(** A plain template validates the document that follows it: what the
    induction on templates carries. *)
Definition validates_null (n : nat) (template : value) : Prop :=
  plain template = true ->
  forall schema,
    generateDynamicSchema template = Returns schema ->
    run schema (null_document n template) = Typed (null_document n template).

(** Positions in a document: a field of an object, an item of an array. *)
Inductive step : Type :=
| Field (key : string)
| Item (i : nat).

Fixpoint document_at (path : list step) (document : value) : value :=
  match path with
  | [] => document
  | Field key :: rest => document_at rest (get document key)
  | Item i :: rest =>
      match document with
      | VArr items => document_at rest (nth i items VUndefined)
      | _ => VUndefined
      end
  end.

Definition inferred (node : value) (type : string) : bool :=
  match inferDataType node with
  | Returns t => String.eqb t type
  | Throws _ => false
  end.

(** Running the schema on the input gives no typed output. *)
Definition fails (schema : Schema) (input : value) : Prop :=
  forall output, run schema input <> Typed output.

(** The node of the template that the synthesizer turns into the schema of
    a position: the fields of an object other than ["type"], and
    [schema[0]] for every item of an array. *)
Fixpoint template_at (path : list step) (template : value) : option value :=
  match path with
  | [] => Some template
  | Field key :: rest =>
      match template with
      | VObj fields =>
          if inferred template "object" && negb (String.eqb key "type")
             && has_key key fields
          then template_at rest (assoc key fields)
          else None
      | _ => None
      end
  | Item _ :: rest =>
      if inferred template "array" then template_at rest (index0 template)
      else None
  end.

(* ===================================================================== *)
(** ** The Retryable Generation Driver *)
(* ===================================================================== *)

(** How the promise built around one run of the executor ends: the
    executor called [resolve], or called [reject] (or threw), or returned
    having called neither, which leaves the promise pending for good. *)
Inductive settlement (T : Type) : Type :=
| Resolved (result : T)
| Rejected (error : exn)
| Pending.
Arguments Resolved {T} result.
Arguments Rejected {T} error.
Arguments Pending {T}.

Section Retry.
Variables (State T : Type).

(** An executor acts on the state it closes over. *)
Definition PromiseExecutor : Type := State -> State * settlement T.

Variable console_error : exn -> State -> State.

(** [RetryablePromise.retry(retries, executor)]: the promise built on the
    executor, with a [catch] that logs the error and, when
    [retries > 0], returns [retry(retries - 1, executor)], else rejects
    with the same error.  A promise that stays pending never reaches the
    [catch]. *)
Equations? retry (retries : Z) (executor : PromiseExecutor) (s : State)
  : State * settlement T by wf (Z.to_nat retries) lt :=
  retry retries executor s with executor s := {
    | (s1, Resolved result) => (s1, Resolved result)
    | (s1, Pending) => (s1, Pending)
    | (s1, Rejected error) with Z_gt_le_dec retries 0 := {
        | left _ => retry (retries - 1) executor (console_error error s1)
        | right _ => (console_error error s1, Rejected error) } }.
Proof. lia. Qed.

(** The executor instrumented to record how each of its runs ended. *)
Definition recording (executor : PromiseExecutor)
  : list (settlement T) * State -> (list (settlement T) * State) * settlement T :=
  fun '(runs, s) =>
    let (s1, end_) := executor s in ((runs ++ [end_])%list, s1, end_).

(** [console.error] on the instrumented state. *)
Definition recording_error (error : exn) (rs : list (settlement T) * State)
  : list (settlement T) * State :=
  (fst rs, console_error error (snd rs)).

Definition is_rejected (r : settlement T) : bool :=
  match r with
  | Rejected _ => true
  | _ => false
  end.
End Retry.

(* ===================================================================== *)
(** ** The collaborators of the handler *)
(* ===================================================================== *)

Record Message : Type := { role : string; content : string }.

Record CompletionConfig : Type := {
  model : string;
  messages : list Message
}.

(** What [openai.chat.completions.create] resolves to: the content of the
    message of each choice ([None] for [null]) and [usage.total_tokens]
    ([None] when the response has no usage). *)
Record ChatCompletion : Type := {
  choices : list (option string);
  usage_total_tokens : option Z
}.

(** Code and data from outside the two source files.  The external
    generator answers its [n]-th request through
    [chat_completions_create n]. *)
Record External : Type := {
  EXAMPLE_PROMPT : string;
  EXAMPLE_ANSWER : string;
  JSON_stringify : value -> string;
  JSON_parse : string -> thrown value;
  GPTTokens_usedTokens : CompletionConfig -> Z;
  chat_completions_create : nat -> CompletionConfig -> thrown ChatCompletion
}.

(** The rows of the three tables behind the Supabase client.  [credits] is
    the number that unary plus makes of the stored text. *)
Record KeyRow : Type := { key : string; key_user_id : string }.
Record TokensRow : Type := { tokens_user_id : string; credits : number }.
Record TokensUsedRow : Type := { used : Z; used_user_id : string }.

Inductive log_line : Type :=
| LogEstimate (credits : number) (usedTokens : Z)
| LogRetry (error : exn).

(** Everything a request can change. *)
Record Store : Type := {
  keys : list KeyRow;
  tokens : list TokensRow;
  tokens_used : list TokensUsedRow;
  openai_requests : list CompletionConfig;
  console : list log_line
}.

(** [.single()]: the row when exactly one matches, else no data. *)
Definition single {A} (rows : list A) : option A :=
  match rows with
  | [row] => Some row
  | _ => None
  end.

Definition select_key (apiToken : string) (w : Store) : option KeyRow :=
  single (filter (fun r => String.eqb (key r) apiToken) (keys w)).

Definition select_tokens (user_id : string) (w : Store) : option TokensRow :=
  single (filter (fun r => String.eqb (tokens_user_id r) user_id) (tokens w)).

Definition insert_tokens_used (row : TokensUsedRow) (w : Store) : Store :=
  {| keys := keys w; tokens := tokens w;
     tokens_used := (tokens_used w ++ [row])%list;
     openai_requests := openai_requests w; console := console w |}.

Definition update_credits (user_id : string) (value_ : number) (w : Store)
  : Store :=
  {| keys := keys w;
     tokens := map (fun r => if String.eqb (tokens_user_id r) user_id
                             then {| tokens_user_id := tokens_user_id r;
                                     credits := value_ |}
                             else r) (tokens w);
     tokens_used := tokens_used w;
     openai_requests := openai_requests w; console := console w |}.

Definition send_request (config : CompletionConfig) (w : Store) : Store :=
  {| keys := keys w; tokens := tokens w; tokens_used := tokens_used w;
     openai_requests := (openai_requests w ++ [config])%list;
     console := console w |}.

Definition console_log (line : log_line) (w : Store) : Store :=
  {| keys := keys w; tokens := tokens w; tokens_used := tokens_used w;
     openai_requests := openai_requests w;
     console := (console w ++ [line])%list |}.

(** The request: the [X-API-KEY] header ([undefined] when absent) and what
    [await ctx.req.json()] gives. *)
Record Request : Type := {
  header_X_API_KEY : value;
  req_json : thrown value
}.

(** The [error] field of a response body: [null], a message, or the map
    from field name to the issue whose message it reports. *)
Inductive error_field : Type :=
| NoError
| ErrorMessage (message : string)
| ErrorIssues (issues : list (string * issue)).

Record Response : Type := {
  status : Z;
  error : error_field;
  data : value;
  tokensUsed : option Z
}.

(** [ctx.json({error, data}, status)] *)
Definition json_error (message : string) (status_ : Z) : Response :=
  {| status := status_; error := ErrorMessage message; data := VNull;
     tokensUsed := None |}.

(* ===================================================================== *)
(** ** Control flow of the handler *)
(* ===================================================================== *)

(** How a block of the handler ends: it falls through with a value, it
    returns a response from the handler, it throws, or it awaits a promise
    that never settles. *)
Inductive flow (A : Type) : Type :=
| Next (a : A)
| Return_ (response : Response)
| Raise (e : exn)
| Stuck.
Arguments Next {A} a.
Arguments Return_ {A} response.
Arguments Raise {A} e.
Arguments Stuck {A}.

Definition action (A : Type) : Type := Store -> Store * flow A.

Definition pure {A} (a : A) : action A := fun w => (w, Next a).

Definition bind {A B} (m : action A) (k : A -> action B) : action B :=
  fun w =>
    match m w with
    | (w1, Next a) => k a w1
    | (w1, Return_ r) => (w1, Return_ r)
    | (w1, Raise e) => (w1, Raise e)
    | (w1, Stuck) => (w1, Stuck)
    end.

Definition return_ {A} (r : Response) : action A := fun w => (w, Return_ r).

Definition eval {A} (m : thrown A) : action A :=
  fun w =>
    match m with
    | Returns a => (w, Next a)
    | Throws e => (w, Raise e)
    end.

Definition query {A} (q : Store -> A) : action A := fun w => (w, Next (q w)).

Definition effect (f : Store -> Store) : action unit :=
  fun w => (f w, Next tt).

(** [try { body } catch (error) { handler }] *)
Definition try_catch {A} (body : action A) (handler : exn -> action A)
  : action A :=
  fun w =>
    match body w with
    | (w1, Raise e) => handler e w1
    | r => r
    end.

(** [await promise] *)
Definition await {A} (promise : Store -> Store * settlement A) : action A :=
  fun w =>
    match promise w with
    | (w1, Resolved a) => (w1, Next a)
    | (w1, Rejected e) => (w1, Raise e)
    | (w1, Pending) => (w1, Stuck)
    end.

Declare Scope action_scope.
Delimit Scope action_scope with action.
Notation "x <- m ;; k" := (bind m (fun x => k))
  (at level 61, m at next level, right associativity) : action_scope.
Notation "m ;; k" := (bind m (fun _ => k))
  (at level 61, right associativity) : action_scope.

(* ===================================================================== *)
(** ** The request orchestrator: [app.post("/v1", ...)] *)
(* ===================================================================== *)

Definition quote : string := String (ascii_of_nat 34) EmptyString.
Definition newline : string := String (ascii_of_nat 10) EmptyString.

(** The text of a value known to be a string. *)
Definition text_of (v : value) : string :=
  match v with
  | VStr s => s
  | _ => EmptyString
  end.

(** [String(answer)] for the content of a message, [null] included. *)
Definition answer_text (answer : option string) : string :=
  match answer with
  | Some s => s
  | None => "null"
  end.

(** Truthiness of a number that is not [NaN]. *)
Definition truthy (n : Z) : bool := negb (n =? 0).

(** [issues[key] = message] on the record built in the [catch]. *)
Fixpoint record_set (key : string) (i : issue) (m : list (string * issue))
  : list (string * issue) :=
  match m with
  | [] => [(key, i)]
  | (k, j) :: rest =>
      if String.eqb k key then (k, i) :: rest
      else (k, j) :: record_set key i rest
  end.

(** [issue.path?.[0]?.key] when it is truthy, as a property name. *)
Definition truthy_key (i : issue) : option string :=
  match issue_path0 i with
  | Some (KeyName name) =>
      if String.eqb name EmptyString then None else Some name
  | Some (KeyIndex 0) => None
  | Some (KeyIndex n) => Some (index_key n)
  | None => None
  end.

Definition issue_map (issues : list issue) : list (string * issue) :=
  fold_left (fun m i => match truthy_key i with
                        | Some k => record_set k i m
                        | None => m
                        end) issues [].

Definition apiTokenSchema : Schema := string_ (Some 24%nat) (Some 32%nat).

Definition payloadSchema : Schema :=
  object [("input", string_ None None); ("format", looseObject [])].

Definition invalid_key_message : string := "Unauthorized: Invalid API Key".
Definition no_subscription_message : string :=
  "Unauthorized: Please completed the subscription process in the dashboard (https://www.data2json.xyz/dashboard)".
Definition not_enough_credits_message : string :=
  "Unauthorized: Not enough credits available.".
Definition header_not_found_message : string :=
  "Unauthorized: X-API-KEY header not found!".

(** What calling the handler comes to. *)
Inductive reply : Type :=
| Responded (response : Response)
| NoResponse
| Uncaught (e : exn)
| NeverSettles.

Local Open Scope action_scope.

Section Server.
Variable ext : External.

Definition completionConfig (input : string) (format : value)
  : CompletionConfig :=
  {| model := "gpt-4o";
     messages :=
       [ {| role := "assistant";
            content := "You are an AI that converts data into JSON format based on the given template. Respond with nothing but valid JSON directly, starting with { and ending with }. If a field cannot be determined, use null." |};
         {| role := "user"; content := EXAMPLE_PROMPT ext |};
         {| role := "user"; content := EXAMPLE_ANSWER ext |};
         {| role := "user";
            content :=
              "DATA: " ++ newline ++ quote ++ input ++ quote ++ newline
              ++ newline ++ "-----------" ++ newline
              ++ "Expected JSON format:" ++ newline
              ++ JSON_stringify ext format ++ newline ++ newline
              ++ "-----------" ++ newline
              ++ "Valid JSON output in expected format:" |} ] |}.

(** The credit check: [+credits > usageEstimate.usedTokens]. *)
Definition enough_credits (credits_ : number) (usedTokens : Z) : bool :=
  number_gt credits_ (Num usedTokens).

(** The executor handed to [RetryablePromise.retry].  Its state is the
    store and the variable [tokensUsed] it closes over.  It is an [async]
    function: what it throws before reaching its own [try] rejects the
    promise of the function, which nothing awaits, and neither [resolve]
    nor [reject] is called. *)
Definition executor (config : CompletionConfig) (dynamicSchema : Schema)
  : PromiseExecutor (Store * Z) value :=
  fun '(w, tokensUsed_) =>
    let w1 := send_request config w in
    match chat_completions_create ext (List.length (openai_requests w))
            config with
    | Throws _ => ((w1, tokensUsed_), Pending)
    | Returns openaiResponse =>
        match choices openaiResponse with
        | [] => ((w1, tokensUsed_), Pending)
        | answer :: _ =>
            let tokensUsed1 :=
              match usage_total_tokens openaiResponse with
              | Some total_tokens =>
                  if truthy total_tokens then tokensUsed_ + total_tokens
                  else tokensUsed_
              | None => tokensUsed_
              end in
            match (jsonAnswer <- JSON_parse ext (answer_text answer) ;;
                   parse dynamicSchema jsonAnswer)%thrown with
            | Returns result => ((w1, tokensUsed1), Resolved result)
            | Throws error_ => ((w1, tokensUsed1), Rejected error_)
            end
        end
    end.

Definition log_retry (error_ : exn) (s : Store * Z) : Store * Z :=
  (console_log (LogRetry error_) (fst s), snd s).

(** [RetryablePromise.retry(1, executor)] started with [tokensUsed = 0];
    a resolution is paired with the value [tokensUsed] has by then. *)
Definition generation (config : CompletionConfig) (dynamicSchema : Schema)
  (w : Store) : Store * settlement (value * Z) :=
  match retry log_retry 1 (executor config dynamicSchema) (w, 0) with
  | ((w1, tokensUsed_), Resolved response) =>
      (w1, Resolved (response, tokensUsed_))
  | ((w1, _), Rejected error_) => (w1, Rejected error_)
  | ((w1, _), Pending) => (w1, Pending)
  end.

(** What follows the credit check in the innermost [try] block: schema
    synthesis, generation, the two writes and the response. *)
Definition fulfil (user_id : string) (credits_ : number)
  (config : CompletionConfig) (format : value) : action unit :=
  dynamicSchema <- eval (generateDynamicSchema format) ;;
  done <- await (generation config dynamicSchema) ;;
  effect (insert_tokens_used
            {| used := snd done; used_user_id := user_id |}) ;;
  effect (update_credits user_id
            (number_sub credits_ (Num (snd done)))) ;;
  return_ {| status := 200; error := NoError; data := fst done;
             tokensUsed := Some (snd done) |}.

(** The request the generator would be sent for a parsed payload. *)
Definition prospective (payload : value) : CompletionConfig :=
  completionConfig (text_of (get payload "input")) (get payload "format").

(** The innermost [try] block. *)
Definition metered (user_id : string) (credits_ : number) (ctx : Request)
  : action unit :=
  body <- eval (req_json ctx) ;;
  payload <- eval (parse payloadSchema body) ;;
  let format := get payload "format" in
  let config := prospective payload in
  let usedTokens := GPTTokens_usedTokens ext config in
  effect (console_log (LogEstimate credits_ usedTokens)) ;;
  if negb (enough_credits credits_ usedTokens) then
    return_ (json_error not_enough_credits_message 401)
  else fulfil user_id credits_ config format.

Definition handler (ctx : Request) : action unit :=
  try_catch
    (apiToken <- eval (parse apiTokenSchema (header_X_API_KEY ctx)) ;;
     try_catch
       (apiKeyRecord <- query (select_key (text_of apiToken)) ;;
        match apiKeyRecord with
        | None => return_ (json_error invalid_key_message 401)
        | Some apiKeyRecord =>
            creditsAvailable <-
              query (select_tokens (key_user_id apiKeyRecord)) ;;
            match creditsAvailable with
            | None => return_ (json_error no_subscription_message 401)
            | Some row =>
                try_catch
                  (metered (key_user_id apiKeyRecord) (credits row) ctx)
                  (fun _ => pure tt)
            end
        end)
       (fun error_ =>
          match error_ with
          | ValiError issues =>
              return_ {| status := 400;
                         error := ErrorIssues (issue_map issues);
                         data := VNull; tokensUsed := None |}
          | _ => eval (Throws TypeError)
          end))
    (fun _ => return_ (json_error header_not_found_message 401)).

Definition post_v1 (ctx : Request) (w : Store) : Store * reply :=
  match handler ctx w with
  | (w1, Return_ response) => (w1, Responded response)
  | (w1, Next _) => (w1, NoResponse)
  | (w1, Raise e) => (w1, Uncaught e)
  | (w1, Stuck) => (w1, NeverSettles)
  end.

(** The tokens the [n]-th response of the generator reports. *)
Definition reported_tokens (config : CompletionConfig) (n : nat) : Z :=
  match chat_completions_create ext n config with
  | Returns openaiResponse =>
      match usage_total_tokens openaiResponse with
      | Some total_tokens => total_tokens
      | None => 0
      end
  | Throws _ => 0
  end.

(** Their sum over [count] responses starting with the [first]. *)
Fixpoint total_reported (config : CompletionConfig) (first count : nat)
  : Z :=
  match count with
  | O => 0
  | S more =>
      reported_tokens config first + total_reported config (S first) more
  end.
End Server.

(** The request carries a key of a caller with a credit record: steps 1 to
    3 of the handler pass. *)
Definition authenticated (ctx : Request) (w : Store) (user_id : string)
    (balance : number) : Prop :=
  exists apiToken keyRow tokensRow,
    parse apiTokenSchema (header_X_API_KEY ctx) = Returns apiToken
    /\ select_key (text_of apiToken) w = Some keyRow
    /\ select_tokens (key_user_id keyRow) w = Some tokensRow
    /\ user_id = key_user_id keyRow
    /\ balance = credits tokensRow.

(** The body is JSON of the shape [{input: string, format: object}], and
    [payload] is what [parse(payloadSchema, ...)] returns for it. *)
Definition body_parses (ctx : Request) (payload : value) : Prop :=
  exists body,
    req_json ctx = Returns body
    /\ parse payloadSchema body = Returns payload.

(* ===================================================================== *)
(** ** A sample deployment *)
(* ===================================================================== *)

(** One key, one caller, and a generator that follows a script of
    answers.  The three answers used are a document that fits the sample
    template, one that does not, and text that is not JSON. *)
Module Sample.
Definition text_jane : string :=
  "{" ++ quote ++ "name" ++ quote ++ ":" ++ quote ++ "Jane" ++ quote ++ "}".
Definition text_wrong : string :=
  "{" ++ quote ++ "name" ++ quote ++ ":1}".
Definition text_sorry : string := "Sorry, I cannot do that.".

Definition parse_text (s : string) : thrown value :=
  if String.eqb s text_jane then Returns (VObj [("name", VStr "Jane")])
  else if String.eqb s text_wrong then
    Returns (VObj [("name", VNum (Num 1))])
  else if String.eqb s "null" then Returns VNull
  else Throws SyntaxError.

Definition answers (text : string) (total_tokens : Z)
  : thrown ChatCompletion :=
  Returns {| choices := [Some text];
             usage_total_tokens := Some total_tokens |}.

Definition ext (estimate : Z) (script : list (thrown ChatCompletion))
  : External :=
  {| EXAMPLE_PROMPT := "Tom is 4";
     EXAMPLE_ANSWER := "{}";
     JSON_stringify := fun _ => "{}";
     JSON_parse := parse_text;
     GPTTokens_usedTokens := fun _ => estimate;
     chat_completions_create :=
       fun n _ => nth n script (Throws APIError) |}.

Definition api_key : string := "k123456789012345678901234".

Definition store (balance : Z) : Store :=
  {| keys := [ {| key := api_key; key_user_id := "user-1" |} ];
     tokens := [ {| tokens_user_id := "user-1"; credits := Num balance |} ];
     tokens_used := [];
     openai_requests := [];
     console := [] |}.

Definition template : value := VObj [("name", VStr "x")].

Definition request (body : value) : Request :=
  {| header_X_API_KEY := VStr api_key; req_json := Returns body |}.

Definition good_body : value :=
  VObj [("input", VStr "Jane, age 30"); ("format", template)].

Definition bad_body : value :=
  VObj [("input", VNum (Num 5)); ("format", template)].

(** An executor over a call counter: rejected twice, then resolved. *)
Definition flaky : PromiseExecutor nat nat :=
  fun calls =>
    (S calls,
     if Nat.ltb calls 2 then Rejected APIError else Resolved calls).

Definition no_log (error : exn) (calls : nat) : nat := calls.
End Sample.

(* ===================================================================== *)
(** ** Notions used by the further properties *)
(* ===================================================================== *)

Section SchemaInduction.
Variable P : Schema -> Prop.
Hypothesis Hstring : forall lo hi, P (string_ lo hi).
Hypothesis Hboolean : P boolean_.
Hypothesis Hnumber : P number_.
Hypothesis Hnullable : forall w, P w -> P (nullable w).
Hypothesis Harray : forall item, P item -> P (array item).
Hypothesis Hobject :
  forall entries, (forall k s, In (k, s) entries -> P s) -> P (object entries).
Hypothesis Hloose :
  forall entries, (forall k s, In (k, s) entries -> P s) ->
                  P (looseObject entries).

Fixpoint Schema_induction (s : Schema) : P s :=
  let each :=
    fix each (l : list (string * Schema))
      : forall k c, In (k, c) l -> P c :=
      match l with
      | [] => fun _ _ (H : In _ []) => match H with end
      | e :: r => fun k c (H : In (k, c) (e :: r)) =>
          match H with
          | or_introl eq => eq_ind (snd e) P (Schema_induction (snd e)) c
                              (f_equal snd eq)
          | or_intror i => each r k c i
          end
      end in
  match s with
  | string_ lo hi => Hstring lo hi
  | boolean_ => Hboolean
  | number_ => Hnumber
  | nullable w => @Hnullable w (Schema_induction w)
  | array item => @Harray item (Schema_induction item)
  | object entries => @Hobject entries (each entries)
  | looseObject entries => @Hloose entries (each entries)
  end.
End SchemaInduction.

(** The entries of every object schema inside have pairwise distinct
    keys, as the entries of a JavaScript object do. *)
Fixpoint distinct_entries (s : Schema) : bool :=
  match s with
  | nullable w => distinct_entries w
  | array item => distinct_entries item
  | object entries | looseObject entries =>
      distinct_keys [] (map fst entries)
      && forallb (fun e => distinct_entries (snd e)) entries
  | _ => true
  end.

(** The schemas the synthesizer builds from a plain template: nullable
    primitives without length bounds at the leaves, under arrays and
    objects that have no entry named ["type"] and no prototype installed
    under ["__proto__"]. *)
Fixpoint synthesized_form (s : Schema) : bool :=
  match s with
  | nullable (string_ None None) => true
  | nullable boolean_ => true
  | nullable number_ => true
  | array item => synthesized_form item
  | object entries =>
      forallb (fun e => negb (String.eqb (fst e) "type")
                        && negb (String.eqb (fst e) "__proto__")
                        && synthesized_form (snd e)) entries
  | _ => false
  end.

(** No object inside has an own property named [hasOwnProperty]. *)
Fixpoint no_shadow (v : value) : bool :=
  match v with
  | VArr items => forallb no_shadow items
  | VObj fields =>
      negb (has_key "hasOwnProperty" fields)
      && forallb (fun kx => no_shadow (snd kx)) fields
  | _ => true
  end.

(** The keys of the fields the synthesizer keeps. *)
Definition kept_keys (fields : list (string * value)) : list string :=
  filter (fun k => negb (String.eqb k "type")) (map fst fields).

(** The row of the [tokens] table after [update(...).eq("user_id", ...)]. *)
Definition credited (user_id : string) (value_ : number) (r : TokensRow)
  : TokensRow :=
  if String.eqb (tokens_user_id r) user_id
  then {| tokens_user_id := tokens_user_id r; credits := value_ |}
  else r.

(** The header is a string of 24 to 32 characters. *)
Definition valid_api_key (header : value) : Prop :=
  exists s, header = VStr s /\ (24 <= String.length s <= 32)%nat.

(** The [n]-th answer of the generator arrives, and [JSON.parse] or the
    schema throws [e] on its first choice. *)
Definition answer_rejected (ext : External) (config : CompletionConfig)
    (dynamicSchema : Schema) (n : nat) (e : exn) : Prop :=
  exists openaiResponse answer more,
    chat_completions_create ext n config = Returns openaiResponse
    /\ choices openaiResponse = answer :: more
    /\ bind_thrown (JSON_parse ext (answer_text answer))
         (parse dynamicSchema) = Throws e.

(** The [n]-th answer of the generator arrives, its first choice is JSON
    and the schema returns [result] for it. *)
Definition answer_accepted (ext : External) (config : CompletionConfig)
    (dynamicSchema : Schema) (n : nat) (result : value) : Prop :=
  exists openaiResponse answer more jsonAnswer,
    chat_completions_create ext n config = Returns openaiResponse
    /\ choices openaiResponse = answer :: more
    /\ JSON_parse ext (answer_text answer) = Returns jsonAnswer
    /\ parse dynamicSchema jsonAnswer = Returns result.

(** Of the two attempts [retry(1, ...)] allows, the one numbered
    [attempts] is the first whose answer is accepted; [first] is the
    number of the answer the first attempt receives. *)
Definition attempt_succeeds (ext : External) (config : CompletionConfig)
    (dynamicSchema : Schema) (first attempts : nat) (result : value)
  : Prop :=
  (attempts = 1%nat
   /\ answer_accepted ext config dynamicSchema first result)
  \/ (attempts = 2%nat
      /\ (exists e, answer_rejected ext config dynamicSchema first e)
      /\ answer_accepted ext config dynamicSchema (S first) result).

(** The ways through the handler, read off its [try] blocks and [return]
    statements: for each, the store it leaves and its reply. *)
Inductive handled (ext : External) (ctx : Request) (w : Store)
  : Store * reply -> Prop :=
| handled_bad_header :
    ~ valid_api_key (header_X_API_KEY ctx) ->
    handled ext ctx w
      (w, Responded (json_error header_not_found_message 401))
| handled_unknown_key s :
    header_X_API_KEY ctx = VStr s ->
    valid_api_key (header_X_API_KEY ctx) ->
    select_key s w = None ->
    handled ext ctx w (w, Responded (json_error invalid_key_message 401))
| handled_no_credit_record s keyRow :
    header_X_API_KEY ctx = VStr s ->
    valid_api_key (header_X_API_KEY ctx) ->
    select_key s w = Some keyRow ->
    select_tokens (key_user_id keyRow) w = None ->
    handled ext ctx w
      (w, Responded (json_error no_subscription_message 401))
| handled_bad_body user_id balance e :
    authenticated ctx w user_id balance ->
    bind_thrown (req_json ctx) (parse payloadSchema) = Throws e ->
    handled ext ctx w (w, NoResponse)
| handled_denied user_id balance payload :
    authenticated ctx w user_id balance ->
    body_parses ctx payload ->
    enough_credits balance
      (GPTTokens_usedTokens ext (prospective ext payload)) = false ->
    handled ext ctx w
      (console_log
         (LogEstimate balance
            (GPTTokens_usedTokens ext (prospective ext payload))) w,
       Responded (json_error not_enough_credits_message 401))
| handled_no_schema user_id balance payload e :
    authenticated ctx w user_id balance ->
    body_parses ctx payload ->
    enough_credits balance
      (GPTTokens_usedTokens ext (prospective ext payload)) = true ->
    generateDynamicSchema (get payload "format") = Throws e ->
    handled ext ctx w
      (console_log
         (LogEstimate balance
            (GPTTokens_usedTokens ext (prospective ext payload))) w,
       NoResponse)
| handled_generated user_id balance payload dynamicSchema w2 end_ :
    authenticated ctx w user_id balance ->
    body_parses ctx payload ->
    enough_credits balance
      (GPTTokens_usedTokens ext (prospective ext payload)) = true ->
    generateDynamicSchema (get payload "format") = Returns dynamicSchema ->
    generation ext (prospective ext payload) dynamicSchema
      (console_log
         (LogEstimate balance
            (GPTTokens_usedTokens ext (prospective ext payload))) w)
    = (w2, end_) ->
    handled ext ctx w
      match end_ with
      | Resolved done =>
          (update_credits user_id (number_sub balance (Num (snd done)))
             (insert_tokens_used
                {| used := snd done; used_user_id := user_id |} w2),
           Responded {| status := 200; error := NoError; data := fst done;
                        tokensUsed := Some (snd done) |})
      | Rejected _ => (w2, NoResponse)
      | Pending => (w2, NeverSettles)
      end.

(** An executor over a call counter whose every run is rejected. *)
Definition always_failing : PromiseExecutor nat nat :=
  fun calls => (S calls, Rejected APIError).

(* ===================================================================== *)
(** * Properties *)
(* ===================================================================== *)

Close Scope action_scope.
Unset Implicit Arguments.

(** ** The Type Inferencer *)

Lemma inferDataType_throws_TypeError node e :
  inferDataType node = Throws e -> e = TypeError.
Proof.
  unfold inferDataType, hasOwnProperty_type.
  destruct node as [| | b | n | s | items | fields]; simpl; try discriminate.
  destruct (has_key "hasOwnProperty" fields); simpl.
  - congruence.
  - destruct (negb (has_key "type" fields)); try discriminate.
    destruct (assoc "type" fields); try discriminate.
Qed.

Lemma types_includes_In s :
  types_includes (VStr s) = true -> In s types.
Proof.
  simpl. rewrite !orb_true_iff.
  intros H; repeat destruct H as [H | H];
    try (apply String.eqb_eq in H; subst; simpl; tauto).
  discriminate.
Qed.

(** C4, counterexample: on [undefined] the inferencer answers
    ["undefined"], which is none of the five kinds and is not
    ["object"].  The synthesizer does pass it [undefined]: that is
    [schema[0]] for an empty array. *)
Lemma inferDataType_undefined_is_no_kind :
  inferDataType VUndefined = Returns "undefined"
  /\ ~ In "undefined" types
  /\ inferDataType VUndefined <> Returns "object"
  /\ index0 (VArr []) = VUndefined.
Proof.
  split; [reflexivity | split; [| split; [discriminate | reflexivity]]].
  simpl. intros H. repeat destruct H as [H | H]; try discriminate. exact H.
Qed.

(** C4, as amended: on every node other than [undefined] whose
    [hasOwnProperty] is the inherited method, the inferencer returns one of
    the five kinds.  Without a ["type"] property the kind is ["array"] for
    an array, the primitive kind for a string, boolean or number, and
    ["object"] otherwise ([null] included); with one, it is the marker when
    the marker is one of the five and ["object"] when it is not. *)
Theorem inferDataType_five_kinds (node : value) :
  node <> VUndefined ->
  shadows_hasOwnProperty node = false ->
  exists kind,
    inferDataType node = Returns kind
    /\ In kind types
    /\ (unmarked node = true ->
        kind = match node with
               | VArr _ => "array"
               | VStr _ => "string"
               | VBool _ => "boolean"
               | VNum _ => "number"
               | _ => "object"
               end)
    /\ (unmarked node = false ->
        kind = if types_includes (get node "type")
               then text_of (get node "type") else "object").
Proof.
  intros Hdef Hown.
  destruct node as [| | b | n | s | items | fields];
    try (eexists; split; [reflexivity | simpl; intuition congruence]).
  simpl in Hown. unfold inferDataType, hasOwnProperty_type, unmarked.
  rewrite Hown. cbn [bind_thrown get isArray typeof].
  destruct (has_key "type" fields) eqn:Hm; cbn [negb].
  - destruct (assoc "type" fields) as [| | b | n | s | items | fs] eqn:Ht;
      try (eexists; split; [reflexivity | simpl; intuition congruence]).
    destruct (types_includes (VStr s)) eqn:Hin.
    + exists s. split; [reflexivity|]. split.
      { now apply types_includes_In. }
      split; [discriminate | reflexivity].
    + exists "object". split; [reflexivity|]. simpl.
      split; [tauto|]. split; [discriminate | reflexivity].
  - exists "object". split; [reflexivity|]. simpl.
    split; [tauto|]. split; [reflexivity | discriminate].
Qed.

Lemma inferDataType_five_kinds_witness :
  VNull <> VUndefined
  /\ shadows_hasOwnProperty VNull = false
  /\ exists kind, inferDataType VNull = Returns kind /\ In kind types.
Proof.
  split; [discriminate | split; [reflexivity |]].
  destruct (inferDataType_five_kinds VNull) as [kind [H1 [H2 _]]];
    [discriminate | reflexivity |].
  exists kind. split; assumption.
Defined.

(** ** The Schema Synthesizer *)

Lemma generateDynamicSchema_object fields :
  generateDynamicSchema (VObj fields) =
  (type <- inferDataType (VObj fields) ;;
   if String.eqb type "object" then
     shape <- for_in_shape generateDynamicSchema fields ;;
     Returns (object shape)
   else if String.eqb type "array" then
     item <- at_property_0 generateDynamicSchema
               (Returns (leaf_schema "undefined")) fields ;;
     Returns (array item)
   else Returns (leaf_schema type)).
Proof. reflexivity. Qed.

Lemma generateDynamicSchema_array items :
  generateDynamicSchema (VArr items) =
  (item <- generateDynamicSchema (index0 (VArr items)) ;;
   Returns (array item)).
Proof. destruct items; reflexivity. Qed.

Lemma at_property_0_index0 fields :
  at_property_0 generateDynamicSchema (Returns (leaf_schema "undefined"))
    fields
  = generateDynamicSchema (index0 (VObj fields)).
Proof.
  simpl. induction fields as [| [k x] rest IH]; simpl.
  - reflexivity.
  - destruct (String.eqb k "0"); [reflexivity | exact IH].
Qed.

Lemma same_kind_eq a b :
  same_kind a b = true -> inferDataType a = inferDataType b.
Proof.
  unfold same_kind.
  destruct (inferDataType a) as [x | e] eqn:Ha,
           (inferDataType b) as [y | f] eqn:Hb; try discriminate.
  - intros H. apply String.eqb_eq in H. now subst.
  - intros _. apply inferDataType_throws_TypeError in Ha, Hb. now subst.
Qed.

Section SameFields.
Variables xs : list (string * value).
Hypothesis IH : forall k x, In (k, x) xs ->
  forall b, same_shape x b = true ->
            generateDynamicSchema x = generateDynamicSchema b.

Lemma same_fields_for_in ys :
  same_fields same_shape xs ys = true ->
  for_in_shape generateDynamicSchema xs
  = for_in_shape generateDynamicSchema ys.
Proof.
  revert ys IH. induction xs as [| [k x] xs' IHxs]; intros [| [l y] ys'] IH;
    simpl; try discriminate; [reflexivity |].
  rewrite !andb_true_iff. intros [[Hk Hx] Hr].
  apply String.eqb_eq in Hk. subst l.
  rewrite (IH k x (or_introl eq_refl) y Hx).
  rewrite (IHxs ys'); [reflexivity | | exact Hr].
  intros k' x' Hin. apply (IH k' x'). now right.
Qed.

Lemma same_fields_at_property_0 d ys :
  same_fields same_shape xs ys = true ->
  at_property_0 generateDynamicSchema d xs
  = at_property_0 generateDynamicSchema d ys.
Proof.
  revert ys IH. induction xs as [| [k x] xs' IHxs]; intros [| [l y] ys'] IH;
    simpl; try discriminate; [reflexivity |].
  rewrite !andb_true_iff. intros [[Hk Hx] Hr].
  apply String.eqb_eq in Hk. subst l.
  rewrite (IH k x (or_introl eq_refl) y Hx).
  rewrite (IHxs ys'); [reflexivity | | exact Hr].
  intros k' x' Hin. apply (IH k' x'). now right.
Qed.
End SameFields.

Lemma same_shape_unfold a b :
  same_shape a b =
  same_kind a b &&
  match a, b with
  | VUndefined, VUndefined => true
  | VNull, VNull => true
  | VBool _, VBool _ => true
  | VNum _, VNum _ => true
  | VStr _, VStr _ => true
  | VArr xs, VArr ys => same_items same_shape xs ys
  | VObj xs, VObj ys => same_fields same_shape xs ys
  | _, _ => false
  end.
Proof. destruct a; reflexivity. Qed.

(** C6: two templates with the same tree and the same inferred kind at
    every node get the same schema, whatever their leaf values are (a
    template that makes the synthesizer throw makes it throw for both). *)
Theorem same_shape_same_schema (a b : value) :
  same_shape a b = true ->
  generateDynamicSchema a = generateDynamicSchema b.
Proof.
  revert b.
  induction a as [| | x | n | s | xs IH | xs IH] using value_induction;
    intros b H; rewrite same_shape_unfold in H;
    apply andb_true_iff in H; destruct H as [Hk Hs];
    destruct b as [| | y | m | t | ys | ys]; try discriminate;
    try reflexivity.
  - rewrite !generateDynamicSchema_array.
    destruct xs as [| x xs'], ys as [| y ys']; simpl in Hs;
      try discriminate; [reflexivity |].
    apply andb_true_iff in Hs. destruct Hs as [Hx _]. simpl index0.
    now rewrite (IH x (or_introl eq_refl) y Hx).
  - rewrite !generateDynamicSchema_object.
    rewrite (same_kind_eq _ _ Hk).
    rewrite (same_fields_for_in xs IH ys Hs).
    rewrite (same_fields_at_property_0 xs IH _ ys Hs).
    reflexivity.
Qed.

Lemma same_shape_same_schema_witness :
  same_shape (VObj [("age", VNum (Num 30))]) (VObj [("age", VNum (Num 0))])
  = true
  /\ generateDynamicSchema (VObj [("age", VNum (Num 30))])
     = generateDynamicSchema (VObj [("age", VNum (Num 0))]).
Proof.
  split; [reflexivity |].
  apply (same_shape_same_schema
           (VObj [("age", VNum (Num 30))]) (VObj [("age", VNum (Num 0))])).
  reflexivity.
Defined.

(** ** Validation of the document that follows a template *)

Lemma parse_Typed schema input output :
  run schema input = Typed output -> parse schema input = Returns output.
Proof. unfold parse. now intros ->. Qed.

Lemma run_array item input :
  run (array item) input
  = match input with
    | VArr items => collect VArr (run_items run item 0 items)
    | _ => Issues [Issue None "Array" input]
    end.
Proof. reflexivity. Qed.

Lemma run_object entries input :
  run (object entries) input
  = if is_object_like input then
      if has_prototype entries then Crashes
      else collect (fun outs => VObj outs) (run_entries run entries input)
    else Issues [Issue None "Object" input].
Proof. reflexivity. Qed.

Lemma run_looseObject entries input :
  run (looseObject entries) input
  = if is_object_like input then
      if has_prototype entries then Crashes
      else collect (fun outs => VObj (outs ++ loose_rest entries input)%list)
             (run_entries run entries input)
    else Issues [Issue None "Object" input].
Proof. reflexivity. Qed.

(** No field named ["__proto__"], no prototype installed. *)
Lemma for_in_shape_has_prototype synthesize fields shape :
  for_in_shape synthesize fields = Returns shape ->
  ~ In "__proto__" (map fst fields) ->
  has_prototype shape = false.
Proof.
  revert shape. induction fields as [| [k x] rest IH]; intros shape; simpl.
  - now intros [= <-].
  - intros Hshape Hout.
    destruct (String.eqb k "type"); [apply IH; tauto |].
    destruct (synthesize x) as [child |]; simpl in Hshape; [| discriminate].
    destruct (for_in_shape synthesize rest) as [shape' |];
      simpl in Hshape; [| discriminate].
    injection Hshape as <-. unfold has_prototype. simpl.
    fold (has_prototype shape'). rewrite (IH shape' eq_refl); [| tauto].
    destruct (String.eqb k "__proto__") eqn:E; [| reflexivity].
    apply String.eqb_eq in E. tauto.
Qed.

Lemma leaf_schema_null type : run (leaf_schema type) VNull = Typed VNull.
Proof.
  unfold leaf_schema.
  destruct (String.eqb type "string"); [reflexivity |].
  destruct (String.eqb type "boolean"); [reflexivity |].
  destruct (String.eqb type "number"); reflexivity.
Qed.

Lemma distinct_keys_NoDup seen keys_ :
  distinct_keys seen keys_ = true ->
  NoDup keys_ /\ forall k, In k keys_ -> ~ In k seen.
Proof.
  revert seen. induction keys_ as [| k rest IH]; intros seen; simpl.
  - intros _. split; [constructor | tauto].
  - rewrite andb_true_iff, negb_true_iff. intros [Hk Hr].
    destruct (IH _ Hr) as [Hnd Hout]. split.
    + constructor; [| exact Hnd].
      intros Hin. apply (Hout k Hin). now left.
    + intros k' [-> | Hin] Hseen.
      * assert (existsb (String.eqb k') seen = true); [| congruence].
        apply existsb_exists. exists k'. split; [exact Hseen |].
        apply String.eqb_refl.
      * apply (Hout k' Hin). now right.
Qed.

Lemma assoc_null_fields (f : value -> value) fields k x :
  NoDup (map fst fields) ->
  In (k, x) fields -> k <> "type" ->
  assoc k (null_fields f fields) = f x.
Proof.
  induction fields as [| [k0 x0] rest IH]; simpl; [tauto |].
  intros Hnd [Heq | Hin] Hk; inversion Hnd as [| ? ? Hout Hnd']; subst.
  - inversion Heq; subst.
    destruct (String.eqb k "type") eqn:E.
    + apply String.eqb_eq in E. contradiction.
    + simpl. now rewrite String.eqb_refl.
  - assert (k0 <> k) as Hne.
    { intros ->. apply Hout. apply in_map_iff. now exists (k, x). }
    apply String.eqb_neq in Hne.
    destruct (String.eqb k0 "type"); simpl; rewrite ?Hne; now apply IH.
Qed.

Lemma run_items_repeat item d n i :
  run item d = Typed d ->
  run_items run item i (repeat d n) = Some (repeat d n, []).
Proof.
  intros Hd. revert i. induction n as [| n IH]; intros i; simpl.
  - reflexivity.
  - now rewrite IH, Hd.
Qed.

Section NullDocument.
Variable n : nat.

Lemma run_entries_null fields document :
  (forall k x, In (k, x) fields -> plain x = true) ->
  (forall k x, In (k, x) fields -> validates_null n x) ->
  (forall k x, In (k, x) fields -> k <> "type" ->
               get document k = null_document n x) ->
  forall shape,
    for_in_shape generateDynamicSchema fields = Returns shape ->
    run_entries run shape document
    = Some (null_fields (null_document n) fields, []).
Proof.
  induction fields as [| [k x] rest IH]; intros Hplain Hval Hget shape;
    simpl.
  - intros [= <-]. reflexivity.
  - assert (forall shape',
               for_in_shape generateDynamicSchema rest = Returns shape' ->
               run_entries run shape' document
               = Some (null_fields (null_document n) rest, [])) as IHrest.
    { apply IH; intros k' x' Hin; [apply (Hplain k') | apply (Hval k') |];
        try now right.
      apply Hget. now right. }
    destruct (String.eqb k "type") eqn:E; [apply IHrest |].
    destruct (generateDynamicSchema x) as [child |] eqn:Hx;
      simpl; [| discriminate].
    destruct (for_in_shape generateDynamicSchema rest) as [shape' |];
      simpl; [| discriminate].
    intros [= <-]. simpl. rewrite (IHrest shape' eq_refl).
    apply String.eqb_neq in E.
    rewrite (Hget k x (or_introl eq_refl) E).
    rewrite (Hval k x (or_introl eq_refl)
               (Hplain k x (or_introl eq_refl)) child Hx).
    reflexivity.
Qed.

Lemma run_property_0_null fields :
  (forall k x, In (k, x) fields -> plain x = true) ->
  (forall k x, In (k, x) fields -> validates_null n x) ->
  forall item,
    at_property_0 generateDynamicSchema (Returns (leaf_schema "undefined"))
      fields = Returns item ->
    run item (null_property_0 (null_document n) fields)
    = Typed (null_property_0 (null_document n) fields).
Proof.
  induction fields as [| [k x] rest IH]; intros Hplain Hval item; simpl.
  - intros [= <-]. reflexivity.
  - destruct (String.eqb k "0").
    + intros Hx.
      apply (Hval k x (or_introl eq_refl)
               (Hplain k x (or_introl eq_refl)) item Hx).
    + apply IH; intros k' x' Hin; [apply (Hplain k') | apply (Hval k')];
        now right.
Qed.

Lemma plain_fields fields :
  plain (VObj fields) = true ->
  NoDup (map fst fields)
  /\ forall k x, In (k, x) fields -> plain x = true.
Proof.
  simpl. rewrite andb_true_iff. intros [Hd Hall]. split.
  - apply (distinct_keys_NoDup _ _ Hd).
  - intros k x Hin. rewrite forallb_forall in Hall.
    apply (Hall (k, x) Hin).
Qed.

Lemma plain_no_prototype fields :
  plain (VObj fields) = true -> ~ In "__proto__" (map fst fields).
Proof.
  simpl. rewrite andb_true_iff. intros [Hd _] Hin.
  apply (proj2 (distinct_keys_NoDup _ _ Hd) _ Hin). now left.
Qed.

Lemma null_document_run template : validates_null n template.
Proof.
  induction template as [| | b | m | s | items IH | fields IH]
    using value_induction; intros Hplain schema;
    try (intros [= <-]; reflexivity).
  - (* an array *)
    rewrite generateDynamicSchema_array.
    destruct items as [| first rest]; simpl index0.
    + intros [= <-]. simpl.
      now rewrite (run_items_repeat _ _ n 0%nat (leaf_schema_null "undefined")).
    + destruct (generateDynamicSchema first) as [item |] eqn:Hitem;
        simpl; [| discriminate].
      intros [= <-].
      assert (plain first = true) as Hfirst.
      { simpl in Hplain. now apply andb_true_iff in Hplain. }
      pose proof (IH first (or_introl eq_refl) Hfirst item Hitem) as Hrun.
      simpl. now rewrite (run_items_repeat _ _ n 0%nat Hrun).
  - (* an object, marked or not *)
    destruct (plain_fields _ Hplain) as [Hnd Hchildren].
    rewrite generateDynamicSchema_object.
    change (null_document n (VObj fields)) with
      (match inferDataType (VObj fields) with
       | Throws _ => VUndefined
       | Returns type =>
           if String.eqb type "object" then
             VObj (null_fields (null_document n) fields)
           else if String.eqb type "array" then
             VArr (repeat (null_property_0 (null_document n) fields) n)
           else VNull
       end).
    destruct (inferDataType (VObj fields)) as [type |]; simpl;
      [| discriminate].
    destruct (String.eqb type "object").
    + destruct (for_in_shape generateDynamicSchema fields) as [shape |]
        eqn:Hshape; simpl; [| discriminate].
      intros [= <-]. rewrite run_object.
      rewrite (for_in_shape_has_prototype _ _ _ Hshape
                 (plain_no_prototype _ Hplain)).
      rewrite (run_entries_null fields
                 (VObj (null_fields (null_document n) fields))
                 Hchildren IH); [reflexivity | | exact Hshape].
      intros k x Hin Hk. simpl. now apply assoc_null_fields.
    + destruct (String.eqb type "array").
      * destruct (at_property_0 generateDynamicSchema
                    (Returns (leaf_schema "undefined")) fields)
          as [item |] eqn:Hitem; simpl; [| discriminate].
        intros [= <-]. simpl.
        now rewrite (run_items_repeat _ _ n 0%nat
                       (run_property_0_null fields Hchildren IH item Hitem)).
      * intros [= <-]. apply leaf_schema_null.
Qed.
End NullDocument.

(** C5, counterexample: a template leaf that is [null] is inferred as an
    object, so its schema is the empty object schema; the document with
    [null] at both leaves of [{name: "x", nick: null}] is rejected. *)
Lemma null_template_leaf_rejects_null :
  generateDynamicSchema (VObj [("name", VStr "x"); ("nick", VNull)])
  = Returns (object [("name", nullable (string_ None None));
                     ("nick", object [])])
  /\ parse (object [("name", nullable (string_ None None));
                    ("nick", object [])])
       (VObj [("name", VNull); ("nick", VNull)])
     = Throws (ValiError [Issue (Some (KeyName "nick")) "Object" VNull]).
Proof. split; reflexivity. Qed.

(** C5, as amended: every schema of a position inferred as string, boolean
    or number (or left to the default case) accepts [null]; and for every
    plain template that has a schema, the document that follows the
    template as the synthesizer reads it -- [null] at every such position,
    an object with the same fields at every position inferred as object,
    [n] items shaped after [schema[0]] at every position inferred as
    array -- validates, and comes back unchanged. *)
Theorem null_document_validates (n : nat) (template : value) (schema : Schema) :
  plain template = true ->
  generateDynamicSchema template = Returns schema ->
  parse schema (null_document n template)
  = Returns (null_document n template)
  /\ forall type, parse (leaf_schema type) VNull = Returns VNull.
Proof.
  intros Hplain Hschema. split.
  - apply parse_Typed. now apply null_document_run.
  - intros type. apply parse_Typed, leaf_schema_null.
Qed.

Lemma null_document_validates_witness :
  plain (VObj [("name", VStr "x"); ("score", VNum (Num 1))]) = true
  /\ generateDynamicSchema (VObj [("name", VStr "x"); ("score", VNum (Num 1))])
     = Returns (object [("name", nullable (string_ None None));
                        ("score", nullable number_)])
  /\ parse (object [("name", nullable (string_ None None));
                    ("score", nullable number_)])
       (VObj [("name", VNull); ("score", VNull)])
     = Returns (VObj [("name", VNull); ("score", VNull)]).
Proof.
  split; [reflexivity | split; [reflexivity |]].
  apply (null_document_validates 1
           (VObj [("name", VStr "x"); ("score", VNum (Num 1))]) _
           eq_refl eq_refl).
Defined.

(** ** The schemas of object and array nodes *)

Lemma document_at_undefined path : document_at path VUndefined = VUndefined.
Proof.
  induction path as [| [key | i] rest IH]; simpl; [reflexivity | exact IH |
    reflexivity].
Qed.

Lemma for_in_shape_entry fields shape key :
  for_in_shape generateDynamicSchema fields = Returns shape ->
  key <> "type" ->
  has_key key fields = true ->
  exists child,
    generateDynamicSchema (assoc key fields) = Returns child
    /\ In (key, child) shape.
Proof.
  revert shape. induction fields as [| [k x] rest IH]; intros shape; simpl;
    [discriminate |].
  intros Hshape Hkey Hhas.
  destruct (String.eqb k key) eqn:E.
  - apply String.eqb_eq in E. subst k.
    apply String.eqb_neq in Hkey. rewrite Hkey in Hshape.
    destruct (generateDynamicSchema x) as [child |]; simpl in Hshape;
      [| discriminate].
    destruct (for_in_shape generateDynamicSchema rest) as [shape' |];
      simpl in Hshape; [| discriminate].
    injection Hshape as <-. exists child. split; [reflexivity | now left].
  - simpl in Hhas.
    destruct (String.eqb k "type").
    + apply (IH shape Hshape Hkey Hhas).
    + destruct (generateDynamicSchema x) as [c |]; simpl in Hshape;
        [| discriminate].
      destruct (for_in_shape generateDynamicSchema rest) as [shape' |];
        simpl in Hshape; [| discriminate].
      injection Hshape as <-.
      destruct (IH shape' eq_refl Hkey Hhas) as [child [Hc Hin]].
      exists child. split; [exact Hc | now right].
Qed.

Lemma inferred_eq node type :
  inferred node type = true -> inferDataType node = Returns type.
Proof.
  unfold inferred. destruct (inferDataType node); [| discriminate].
  intros H. apply String.eqb_eq in H. now subst.
Qed.

Lemma object_schema node schema :
  inferred node "object" = true ->
  generateDynamicSchema node = Returns schema ->
  exists shape,
    schema = object shape
    /\ forall fields, node = VObj fields ->
         for_in_shape generateDynamicSchema fields = Returns shape.
Proof.
  intros Hk. apply inferred_eq in Hk.
  destruct node as [| | b | n | s | items | fields]; try discriminate.
  - intros [= <-]. exists []. split; [reflexivity | discriminate].
  - rewrite generateDynamicSchema_object, Hk. simpl.
    destruct (for_in_shape generateDynamicSchema fields) as [shape |]
      eqn:Hshape; simpl; [| discriminate].
    intros [= <-]. exists shape. split; [reflexivity |].
    now intros ? [= <-].
Qed.

Lemma array_schema node schema :
  inferred node "array" = true ->
  generateDynamicSchema node = Returns schema ->
  exists item,
    schema = array item
    /\ generateDynamicSchema (index0 node) = Returns item.
Proof.
  intros Hk. apply inferred_eq in Hk.
  destruct node as [| | b | n | s | items | fields]; try discriminate.
  - rewrite generateDynamicSchema_array.
    destruct (generateDynamicSchema (index0 (VArr items))) as [item |]
      eqn:Hitem; simpl; [| discriminate].
    intros [= <-]. now exists item.
  - rewrite generateDynamicSchema_object, Hk. simpl.
    rewrite at_property_0_index0.
    destruct (generateDynamicSchema (index0 (VObj fields))) as [item |]
      eqn:Hitem; simpl; [| discriminate].
    intros [= <-]. now exists item.
Qed.

(** ** The Retryable Generation Driver *)

(** One step of [retry], as the source reads. *)
Lemma retry_step (State T : Type) (console_error : exn -> State -> State)
    retries (executor : PromiseExecutor State T) s :
  retry console_error retries executor s =
  match executor s with
  | (s1, Resolved result) => (s1, Resolved result)
  | (s1, Rejected error_) =>
      if retries >? 0
      then retry console_error (retries - 1) executor
             (console_error error_ s1)
      else (console_error error_ s1, Rejected error_)
  | (s1, Pending) => (s1, Pending)
  end.
Proof.
  rewrite retry_equation_1.
  destruct (executor s) as [s1 [result | error_ |]]; simp retry;
    try reflexivity.
  destruct (Z_gt_le_dec retries 0) as [Hgt | Hle]; simp retry.
  - destruct (Z.gtb_spec retries 0); [reflexivity | lia].
  - destruct (Z.gtb_spec retries 0); [lia | reflexivity].
Qed.

Section RetryFacts.
Variables (State T : Type) (console_error : exn -> State -> State).

Lemma recording_run (executor : PromiseExecutor State T) runs s s1 end_ :
  executor s = (s1, end_) ->
  recording executor (runs, s) = ((runs ++ [end_])%list, s1, end_).
Proof. unfold recording. now intros ->. Qed.

Lemma retry_runs (executor : PromiseExecutor State T) n :
  0 <= n ->
  forall runs s,
  exists earlier,
    let r := retry (recording_error console_error) n (recording executor)
               (runs, s) in
    fst (fst r) = (runs ++ earlier ++ [snd r])%list
    /\ forallb (@is_rejected T) earlier = true
    /\ Z.of_nat (List.length earlier) <= n
    /\ (is_rejected (snd r) = true -> Z.of_nat (List.length earlier) = n)
    /\ retry console_error n executor s = (snd (fst r), snd r).
Proof.
  intros Hn. pattern n. apply natlike_ind; [| | exact Hn]; clear n Hn.
  - intros runs s. exists []. cbv zeta.
    destruct (executor s) as [s1 end_] eqn:Hrun.
    rewrite (retry_step _ _ console_error 0 executor s), Hrun.
    rewrite retry_step, (recording_run executor runs s s1 end_ Hrun).
    destruct end_ as [result | error_ |]; simpl;
      repeat split; try reflexivity; try discriminate.
  - intros n Hn IH runs s. cbv zeta.
    destruct (executor s) as [s1 end_] eqn:Hrun.
    rewrite (retry_step _ _ console_error (Z.succ n) executor s), Hrun.
    rewrite retry_step, (recording_run executor runs s s1 end_ Hrun).
    destruct end_ as [result | error_ |].
    + exists []. simpl. repeat split; try reflexivity; try discriminate.
      lia.
    + destruct (Z.gtb_spec (Z.succ n) 0) as [_ | Hle]; [| lia].
      replace (Z.succ n - 1) with n by lia.
      change (recording_error console_error error_
                ((runs ++ [Rejected error_])%list, s1))
        with ((runs ++ [Rejected error_])%list, console_error error_ s1).
      destruct (IH (runs ++ [Rejected error_])%list (console_error error_ s1))
        as [earlier [Hruns [Hrej [Hlen [Hall Hsame]]]]].
      exists (Rejected error_ :: earlier). cbv zeta in *.
      rewrite Hruns, <- app_assoc. simpl.
      repeat split; try assumption; try reflexivity.
      * lia.
      * intros H. specialize (Hall H). lia.
    + exists []. simpl. repeat split; try reflexivity; try discriminate.
      lia.
Qed.
End RetryFacts.

(** C2: with [0 <= n], [retry(n, executor)] runs the executor at most
    [n + 1] times.  [runs] lists how each run ended, in order: every run
    but the last was rejected, so the first run that is not rejected ends
    the call, and its settlement is the outcome of the call; the outcome is
    a rejection only when all [n + 1] runs were rejected, and it is then
    the last rejection.  The instrumented call ends as the plain one. *)
Theorem retry_at_most_n_plus_1
    (State T : Type) (console_error : exn -> State -> State)
    (n : Z) (executor : PromiseExecutor State T) (s : State) :
  0 <= n ->
  exists earlier runs s' outcome,
    retry (recording_error console_error) n (recording executor) ([], s)
    = ((runs, s'), outcome)
    /\ runs = (earlier ++ [outcome])%list
    /\ Z.of_nat (List.length runs) <= n + 1
    /\ forallb (@is_rejected T) earlier = true
    /\ (is_rejected outcome = true -> Z.of_nat (List.length runs) = n + 1)
    /\ retry console_error n executor s = (s', outcome).
Proof.
  intros Hn.
  destruct (retry_runs State T console_error executor n Hn [] s)
    as [earlier H]. cbv zeta in H.
  destruct (retry (recording_error console_error) n (recording executor)
              ([], s)) as [[runs s'] outcome].
  simpl in H. destruct H as [Hruns [Hrej [Hlen [Hall Hsame]]]].
  exists earlier, runs, s', outcome. subst runs.
  rewrite length_app. simpl.
  repeat split; try assumption; try reflexivity.
  - lia.
  - intros H. specialize (Hall H). lia.
Qed.

Lemma retry_at_most_n_plus_1_witness :
  0 <= 2
  /\ exists earlier runs s' outcome,
       retry (recording_error Sample.no_log) 2 (recording Sample.flaky)
         ([], 0%nat)
       = ((runs, s'), outcome)
       /\ runs = (earlier ++ [outcome])%list
       /\ Z.of_nat (List.length runs) <= 2 + 1
       /\ forallb (@is_rejected nat) earlier = true
       /\ (is_rejected outcome = true -> Z.of_nat (List.length runs) = 2 + 1)
       /\ retry Sample.no_log 2 Sample.flaky 0%nat = (s', outcome).
Proof.
  split; [lia |].
  apply (retry_at_most_n_plus_1 nat nat Sample.no_log 2 Sample.flaky 0%nat).
  lia.
Defined.

(** The run of the specification's example: two rejections, then the third
    run resolves and its result is returned after exactly three runs. *)
Example retry_flaky :
  retry (recording_error Sample.no_log) 2 (recording Sample.flaky) ([], 0%nat)
  = (([Rejected APIError; Rejected APIError; Resolved 2%nat], 3%nat),
     Resolved 2%nat).
Proof. reflexivity. Qed.

(** ** The executor of the handler *)

Section ExecutorFacts.
Variable ext : External.
Variables (config : CompletionConfig) (dynamicSchema : Schema).

Lemma executor_sends w t :
  exists t' end_,
    executor ext config dynamicSchema (w, t)
    = ((send_request config w, t'), end_)
    /\ (end_ <> Pending ->
        t' = t + reported_tokens ext config (List.length (openai_requests w))).
Proof.
  unfold executor, reported_tokens.
  destruct (chat_completions_create ext (List.length (openai_requests w))
              config) as [openaiResponse | e].
  - destruct (choices openaiResponse) as [| answer more].
    + do 2 eexists. split; [reflexivity | congruence].
    + destruct (usage_total_tokens openaiResponse) as [total |].
      * assert ((if truthy total then t + total else t) = t + total) as ->.
        { unfold truthy. destruct (Z.eqb_spec total 0); simpl; lia. }
        destruct (bind_thrown (JSON_parse ext (answer_text answer)) _);
          do 2 eexists; (split; [reflexivity | reflexivity]).
      * destruct (bind_thrown (JSON_parse ext (answer_text answer)) _);
          do 2 eexists; (split; [reflexivity | intros _; lia]).
  - do 2 eexists. split; [reflexivity | congruence].
Qed.

(** C3, the failing input: when the call to the generator throws, the
    executor has called neither [resolve] nor [reject]; the promise that
    [retry] returns stays pending after this single request: the failure
    is neither retried nor propagated. *)
Theorem transport_failure_never_settles (w : Store) (e : exn) :
  chat_completions_create ext (List.length (openai_requests w)) config
  = Throws e ->
  executor ext config dynamicSchema (w, 0) = ((send_request config w, 0), Pending)
  /\ retry (log_retry) 1 (executor ext config dynamicSchema) (w, 0)
     = ((send_request config w, 0), Pending)
  /\ generation ext config dynamicSchema w = (send_request config w, Pending).
Proof.
  intros Hthrow.
  assert (executor ext config dynamicSchema (w, 0)
          = ((send_request config w, 0), Pending)) as Hrun.
  { unfold executor. now rewrite Hthrow. }
  assert (retry log_retry 1 (executor ext config dynamicSchema) (w, 0)
          = ((send_request config w, 0), Pending)) as Hretry.
  { now rewrite retry_step, Hrun. }
  repeat split; try assumption.
  unfold generation. now rewrite Hretry.
Qed.

(** A response that is not JSON, or not a document of the schema, does
    reject, and the rejection is retried while the budget lasts. *)
Lemma parse_failure_is_retried w t openaiResponse answer more e :
  chat_completions_create ext (List.length (openai_requests w)) config
  = Returns openaiResponse ->
  choices openaiResponse = answer :: more ->
  (jsonAnswer <- JSON_parse ext (answer_text answer) ;;
   parse dynamicSchema jsonAnswer)%thrown = Throws e ->
  exists t',
    executor ext config dynamicSchema (w, t)
    = ((send_request config w, t'), Rejected e)
    /\ retry log_retry 1 (executor ext config dynamicSchema) (w, t)
       = retry log_retry 0 (executor ext config dynamicSchema)
           (console_log (LogRetry e) (send_request config w), t').
Proof.
  intros Hresp Hchoice Hfail.
  eexists. split.
  - unfold executor. rewrite Hresp, Hchoice, Hfail. reflexivity.
  - rewrite retry_step. unfold executor at 1.
    rewrite Hresp, Hchoice, Hfail. reflexivity.
Qed.
End ExecutorFacts.

Lemma transport_failure_never_settles_witness :
  chat_completions_create (Sample.ext 100 [Throws APIError])
    (List.length (openai_requests (Sample.store 500)))
    (prospective (Sample.ext 100 [Throws APIError]) Sample.good_body)
  = Throws APIError
  /\ generation (Sample.ext 100 [Throws APIError])
       (prospective (Sample.ext 100 [Throws APIError]) Sample.good_body)
       (object [("name", nullable (string_ None None))])
       (Sample.store 500)
     = (send_request
          (prospective (Sample.ext 100 [Throws APIError]) Sample.good_body)
          (Sample.store 500),
        Pending).
Proof.
  split; [reflexivity |].
  apply (transport_failure_never_settles (Sample.ext 100 [Throws APIError])
           (prospective (Sample.ext 100 [Throws APIError]) Sample.good_body)
           (object [("name", nullable (string_ None None))])
           (Sample.store 500) APIError).
  reflexivity.
Defined.

(** ** The request orchestrator *)

(** How the flow of the handler body becomes the reply. *)
Lemma post_v1_authenticated ext ctx w user_id balance :
  authenticated ctx w user_id balance ->
  post_v1 ext ctx w =
  match metered ext user_id balance ctx w with
  | (w1, Return_ response) => (w1, Responded response)
  | (w1, Stuck) => (w1, NeverSettles)
  | (w1, _) => (w1, NoResponse)
  end.
Proof.
  intros [apiToken [keyRow [tokensRow [Hkey [Hrow [Hcredits [-> ->]]]]]]].
  unfold post_v1, handler, try_catch, bind, eval, query.
  rewrite Hkey, Hrow, Hcredits.
  destruct (metered ext (key_user_id keyRow) (credits tokensRow) ctx w)
    as [w1 [[] | response | e |]]; reflexivity.
Qed.

Lemma metered_body_parses ext user_id balance ctx payload w :
  body_parses ctx payload ->
  metered ext user_id balance ctx w =
  let config := prospective ext payload in
  let usedTokens := GPTTokens_usedTokens ext config in
  let w1 := console_log (LogEstimate balance usedTokens) w in
  if enough_credits balance usedTokens
  then fulfil ext user_id balance config (get payload "format") w1
  else (w1, Return_ (json_error not_enough_credits_message 401)).
Proof.
  intros [body [Hbody Hpayload]].
  unfold metered, bind, eval, effect. rewrite Hbody, Hpayload. cbv zeta.
  destruct (enough_credits balance _); reflexivity.
Qed.

(** Whatever [fulfil] returns from the handler is the success response. *)
Lemma fulfil_returns_200 ext user_id balance config format w w1 response :
  fulfil ext user_id balance config format w = (w1, Return_ response) ->
  status response = 200.
Proof.
  unfold fulfil, bind, eval, await, effect, return_.
  destruct (generateDynamicSchema format) as [dynamicSchema | e];
    [| discriminate].
  destruct (generation ext config dynamicSchema w) as [w2 [done | e |]];
    try discriminate.
  intros [= _ <-]. reflexivity.
Qed.

Lemma enough_credits_iff (b e : Z) :
  enough_credits (Num b) e = true <-> b > e.
Proof.
  unfold enough_credits, number_gt. destruct (Z.gtb_spec b e); split;
    intros; try lia; try discriminate; reflexivity.
Qed.

(** C1: for a request that reaches the credit check with balance [b] and
    estimate [e], the handler answers 401 with the insufficient-credits
    message when [b <= e] ([b = e] included), and when [b > e] it goes on
    to synthesis and generation and does not answer with that denial. *)
Theorem metering_gate_strict
    (ext : External) (ctx : Request) (w : Store) (user_id : string)
    (payload : value) (b : Z) :
  authenticated ctx w user_id (Num b) ->
  body_parses ctx payload ->
  let config := prospective ext payload in
  let e := GPTTokens_usedTokens ext config in
  let denial := Responded (json_error not_enough_credits_message 401) in
  (b <= e -> snd (post_v1 ext ctx w) = denial)
  /\ (b > e ->
      snd (post_v1 ext ctx w) <> denial
      /\ post_v1 ext ctx w =
         match fulfil ext user_id (Num b) config (get payload "format")
                 (console_log (LogEstimate (Num b) e) w) with
         | (w1, Return_ response) => (w1, Responded response)
         | (w1, Stuck) => (w1, NeverSettles)
         | (w1, _) => (w1, NoResponse)
         end).
Proof.
  intros Hauth Hbody config e denial.
  rewrite (post_v1_authenticated ext ctx w user_id (Num b) Hauth).
  rewrite (metered_body_parses ext user_id (Num b) ctx payload w Hbody).
  cbv zeta. fold config. fold e.
  pose proof (enough_credits_iff b e) as Hgate.
  destruct (enough_credits (Num b) e).
  - split; [intros Hle; assert (b > e) by (now apply Hgate); lia |].
    intros _. split; [| reflexivity].
    destruct (fulfil ext user_id (Num b) config (get payload "format")
                (console_log (LogEstimate (Num b) e) w))
      as [w1 [[] | response | err |]] eqn:Hflow; simpl; try discriminate.
    apply fulfil_returns_200 in Hflow.
    intros [= ->]. discriminate.
  - split; [reflexivity |].
    intros Hgt. apply Hgate in Hgt. discriminate.
Qed.

(** The premises of the handler theorems, on the sample deployment, hold
    by evaluation. *)
Ltac sample_premise :=
  first
    [ reflexivity
    | simpl; lia
    | unfold authenticated; do 3 eexists; repeat split; reflexivity
    | unfold body_parses; eexists; split; reflexivity ].

Lemma metering_gate_strict_witness :
  let ext := Sample.ext 100 [Sample.answers Sample.text_jane 7] in
  snd (post_v1 ext (Sample.request Sample.good_body) (Sample.store 100))
  = Responded (json_error not_enough_credits_message 401)
  /\ snd (post_v1 ext (Sample.request Sample.good_body) (Sample.store 101))
     <> Responded (json_error not_enough_credits_message 401).
Proof.
  intros ext. split.
  - apply (metering_gate_strict ext (Sample.request Sample.good_body)
             (Sample.store 100) "user-1" Sample.good_body 100);
      sample_premise.
  - apply (metering_gate_strict ext (Sample.request Sample.good_body)
             (Sample.store 101) "user-1" Sample.good_body 101);
      sample_premise.
Defined.

(** C9: a request denied by the credit check is answered 401 with the
    insufficient-credits message; no request has been sent to the
    generator, no usage row has been inserted and no balance updated: only
    the console has a line more. *)
Theorem denied_request_spends_nothing
    (ext : External) (ctx : Request) (w : Store) (user_id : string)
    (balance : number) (payload : value) :
  authenticated ctx w user_id balance ->
  body_parses ctx payload ->
  enough_credits balance
    (GPTTokens_usedTokens ext (prospective ext payload)) = false ->
  snd (post_v1 ext ctx w)
  = Responded {| status := 401;
                 error := ErrorMessage not_enough_credits_message;
                 data := VNull; tokensUsed := None |}
  /\ openai_requests (fst (post_v1 ext ctx w)) = openai_requests w
  /\ tokens_used (fst (post_v1 ext ctx w)) = tokens_used w
  /\ tokens (fst (post_v1 ext ctx w)) = tokens w
  /\ keys (fst (post_v1 ext ctx w)) = keys w.
Proof.
  intros Hauth Hbody Hdeny.
  rewrite (post_v1_authenticated ext ctx w user_id balance Hauth).
  rewrite (metered_body_parses ext user_id balance ctx payload w Hbody).
  cbv zeta. rewrite Hdeny. repeat split.
Qed.

Lemma denied_request_spends_nothing_witness :
  let ext := Sample.ext 100 [Sample.answers Sample.text_jane 7] in
  enough_credits (Num 40)
    (GPTTokens_usedTokens ext (prospective ext Sample.good_body)) = false
  /\ post_v1 ext (Sample.request Sample.good_body) (Sample.store 40)
     = (console_log (LogEstimate (Num 40) 100) (Sample.store 40),
        Responded (json_error not_enough_credits_message 401))
  /\ openai_requests
       (fst (post_v1 ext (Sample.request Sample.good_body) (Sample.store 40)))
     = [].
Proof.
  intros ext. split; [reflexivity | split; [reflexivity |]].
  apply (denied_request_spends_nothing ext (Sample.request Sample.good_body)
           (Sample.store 40) "user-1" (Num 40) Sample.good_body);
    sample_premise.
Defined.

(** C8, the failing input: for a request that passes authentication and
    credit lookup and whose body is JSON of the wrong shape, the
    [ValiError] is caught by the empty [catch] of the innermost [try]; the
    handler returns without a response and nothing is changed.  The [catch]
    that builds the 400 response guards the block outside, which that error
    never reaches. *)
Theorem malformed_body_gets_no_response
    (ext : External) (ctx : Request) (w : Store) (user_id : string)
    (balance : number) (body : value) (issues : list issue) :
  authenticated ctx w user_id balance ->
  req_json ctx = Returns body ->
  parse payloadSchema body = Throws (ValiError issues) ->
  post_v1 ext ctx w = (w, NoResponse).
Proof.
  intros Hauth Hbody Hinvalid.
  rewrite (post_v1_authenticated ext ctx w user_id balance Hauth).
  unfold metered, bind, eval. now rewrite Hbody, Hinvalid.
Qed.

Lemma malformed_body_gets_no_response_witness :
  let ext := Sample.ext 100 [Sample.answers Sample.text_jane 7] in
  parse payloadSchema Sample.bad_body
  = Throws (ValiError [Issue (Some (KeyName "input")) "string" (VNum (Num 5))])
  /\ post_v1 ext (Sample.request Sample.bad_body) (Sample.store 500)
     = (Sample.store 500, NoResponse).
Proof.
  intros ext. split; [reflexivity |].
  apply (malformed_body_gets_no_response ext (Sample.request Sample.bad_body)
           (Sample.store 500) "user-1" (Num 500) Sample.bad_body
           [Issue (Some (KeyName "input")) "string" (VNum (Num 5))]);
    sample_premise.
Defined.

(** ** Usage attribution *)

(** What one run of the executor settles with, read off the answer. *)
Lemma executor_settled ext config dynamicSchema w t :
  let n := List.length (openai_requests w) in
  let after := (send_request config w, t + reported_tokens ext config n) in
  (forall result,
     answer_accepted ext config dynamicSchema n result <->
     executor ext config dynamicSchema (w, t) = (after, Resolved result))
  /\ (forall e,
        answer_rejected ext config dynamicSchema n e <->
        executor ext config dynamicSchema (w, t) = (after, Rejected e)).
Proof.
  intros n after. unfold after, answer_accepted, answer_rejected.
  unfold executor, reported_tokens. fold n.
  destruct (chat_completions_create ext n config) as [openaiResponse | e0].
  - destruct (choices openaiResponse) as [| answer more] eqn:Hchoices.
    + split; intros x; (split; [| discriminate]).
      * intros [r [a [m [j [[= <-] [H _]]]]]].
        rewrite Hchoices in H. discriminate.
      * intros [r [a [m [[= <-] [H _]]]]].
        rewrite Hchoices in H. discriminate.
    + assert (match usage_total_tokens openaiResponse with
              | Some total_tokens =>
                  if truthy total_tokens then t + total_tokens else t
              | None => t
              end
              = t + match usage_total_tokens openaiResponse with
                    | Some total_tokens => total_tokens
                    | None => 0
                    end) as ->.
      { destruct (usage_total_tokens openaiResponse) as [total |]; [| lia].
        unfold truthy. destruct (Z.eqb_spec total 0); simpl; lia. }
      unfold bind_thrown.
      destruct (JSON_parse ext (answer_text answer)) as [json | e1] eqn:Hjson;
        [destruct (parse dynamicSchema json) as [out | e2] eqn:Hparse |];
        (split; intros x; split;
         [ intros [r [a [m [j [[= <-] [Hc [Hj Hp]]]]]]];
           rewrite Hchoices in Hc; injection Hc as <- <-;
           rewrite Hjson in Hj; try discriminate;
           injection Hj as <-; rewrite Hparse in Hp; try discriminate;
           now injection Hp as <-
         | intros [= <-]; exists openaiResponse, answer, more, json;
           repeat split; assumption
         | intros [r [a [m [[= <-] [Hc Hf]]]]];
           rewrite Hchoices in Hc; injection Hc as <- <-;
           rewrite Hjson in Hf; try rewrite Hparse in Hf; try discriminate;
           now injection Hf as <-
         | intros [= <-]; exists openaiResponse, answer, more;
           rewrite Hchoices, Hjson; try rewrite Hparse; repeat split ]).
  - split; intros x; (split; [| discriminate]).
    + intros [r [a [m [j [H _]]]]]. discriminate.
    + intros [r [a [m [H _]]]]. discriminate.
Qed.

Lemma executor_rejects ext config dynamicSchema w t e :
  answer_rejected ext config dynamicSchema
    (List.length (openai_requests w)) e ->
  exists t',
    executor ext config dynamicSchema (w, t)
    = ((send_request config w, t'), Rejected e).
Proof.
  intros Hfail. eexists.
  apply (proj2 (executor_settled ext config dynamicSchema w t) e), Hfail.
Qed.

(** The generation resolves exactly when the first answer is accepted, or
    the first is rejected and the second accepted; the store it leaves and
    the tokens it counted are those of the attempts made. *)
Lemma generation_attempts ext config dynamicSchema w result attempts :
  attempt_succeeds ext config dynamicSchema
    (List.length (openai_requests w)) attempts result ->
  exists w2,
    generation ext config dynamicSchema w
    = (w2, Resolved (result,
                     total_reported ext config
                       (List.length (openai_requests w)) attempts))
    /\ openai_requests w2 = (openai_requests w ++ repeat config attempts)%list
    /\ tokens_used w2 = tokens_used w
    /\ tokens w2 = tokens w
    /\ keys w2 = keys w.
Proof.
  intros [[-> Hfirst] | [-> [[e1 Hfirst] Hsecond]]];
    unfold generation; rewrite retry_step.
  - apply (proj1 (executor_settled ext config dynamicSchema w 0)) in Hfirst.
    rewrite Hfirst. exists (send_request config w).
    split; [| repeat split].
    do 3 f_equal. simpl. lia.
  - apply (proj2 (executor_settled ext config dynamicSchema w 0)) in Hfirst.
    rewrite Hfirst. change (1 >? 0) with true. cbv iota.
    change (1 - 1) with 0. unfold log_retry at 2. cbv [fst snd].
    rewrite retry_step.
    pose proof (proj1 (executor_settled ext config dynamicSchema
                         (console_log (LogRetry e1) (send_request config w))
                         (0 + reported_tokens ext config
                                (List.length (openai_requests w))))
                  result) as Hrun.
    cbv zeta in Hrun. simpl openai_requests in Hrun.
    rewrite length_app, Nat.add_1_r in Hrun.
    rewrite (proj1 Hrun Hsecond).
    exists (send_request config
              (console_log (LogRetry e1) (send_request config w))).
    split; [| repeat split].
    + do 3 f_equal. simpl. lia.
    + simpl. now rewrite <- app_assoc.
Qed.

Lemma generation_resolved ext config dynamicSchema w w2 response t :
  generation ext config dynamicSchema w = (w2, Resolved (response, t)) ->
  exists attempts : nat,
    (attempts = 1 \/ attempts = 2)%nat
    /\ openai_requests w2 = (openai_requests w ++ repeat config attempts)%list
    /\ t = total_reported ext config (List.length (openai_requests w)) attempts
    /\ tokens_used w2 = tokens_used w
    /\ tokens w2 = tokens w
    /\ keys w2 = keys w
    /\ attempt_succeeds ext config dynamicSchema
         (List.length (openai_requests w)) attempts response.
Proof.
  intros Hgen.
  assert (exists attempts : nat,
             (attempts = 1 \/ attempts = 2)%nat
             /\ attempt_succeeds ext config dynamicSchema
                  (List.length (openai_requests w)) attempts response)
    as [attempts [Hcount Hsucceeds]].
  { revert Hgen. unfold generation. rewrite retry_step.
    destruct (executor_sends ext config dynamicSchema w 0)
      as [t1 [end1 [Hrun1 Ht1]]].
    rewrite Hrun1.
    destruct end1 as [result1 | error1 |]; [| | discriminate].
    - intros [= _ <- _]. exists 1%nat. split; [now left |]. left.
      split; [reflexivity |].
      apply (proj1 (executor_settled ext config dynamicSchema w 0)).
      rewrite Hrun1. now rewrite Ht1 by discriminate.
    - change (1 >? 0) with true. cbv iota. change (1 - 1) with 0.
      unfold log_retry at 2. cbv [fst snd]. rewrite retry_step.
      destruct (executor_sends ext config dynamicSchema
                  (console_log (LogRetry error1) (send_request config w)) t1)
        as [t2 [end2 [Hrun2 Ht2]]].
      rewrite Hrun2.
      destruct end2 as [result2 | error2 |]; [| discriminate | discriminate].
      intros [= _ <- _]. exists 2%nat. split; [now right |]. right.
      split; [reflexivity | split].
      + exists error1.
        apply (proj2 (executor_settled ext config dynamicSchema w 0)).
        rewrite Hrun1. now rewrite Ht1 by discriminate.
      + pose proof (executor_settled ext config dynamicSchema
                      (console_log (LogRetry error1) (send_request config w))
                      t1) as Hsettled.
        cbv zeta in Hsettled. simpl openai_requests in Hsettled.
        rewrite length_app, Nat.add_1_r in Hsettled.
        apply (proj1 Hsettled).
        rewrite Hrun2. rewrite Ht2 by discriminate.
        simpl openai_requests. now rewrite length_app, Nat.add_1_r. }
  exists attempts. split; [exact Hcount |].
  destruct (generation_attempts ext config dynamicSchema w response attempts
              Hsucceeds) as [w2' [Hgen' [Hreq [Hused [Htokens Hkeys]]]]].
  rewrite Hgen in Hgen'. injection Hgen' as -> ->.
  repeat split; assumption.
Qed.

(** C7, counterexample: both attempts answer, reporting 7 and 5 tokens,
    and both answers fail (the first against the schema, the second as
    JSON).  The handler ends without a response and without any usage
    record, although the attempts reported 12 tokens. *)
Lemma exhausted_retries_record_nothing :
  let ext := Sample.ext 100 [Sample.answers Sample.text_wrong 7;
                             Sample.answers Sample.text_sorry 5] in
  let end_ := post_v1 ext (Sample.request Sample.good_body)
                (Sample.store 500) in
  snd end_ = NoResponse
  /\ List.length (openai_requests (fst end_)) = 2%nat
  /\ total_reported ext (prospective ext Sample.good_body) 0 2 = 12
  /\ tokens_used (fst end_) = []
  /\ tokens (fst end_) = tokens (Sample.store 500).
Proof. repeat split. Qed.

(** C7, as amended: usage is recorded for the requests in which an attempt
    succeeds, and for those only.  When an authenticated request with
    enough credits has a schema and its first answer is accepted, or its
    first answer is rejected and its second accepted, the handler answers
    200 and inserts exactly one usage row, after the retry loop; the row
    (like the response) carries the sum of the tokens reported by the
    responses of all the attempts made, the rejected first attempt
    included.  Conversely a 200 answer only comes about this way. *)
Theorem usage_recorded_once (ext : External) (ctx : Request) (w : Store) :
  (forall user_id balance payload dynamicSchema (attempts : nat) result,
     authenticated ctx w user_id balance ->
     body_parses ctx payload ->
     enough_credits balance
       (GPTTokens_usedTokens ext (prospective ext payload)) = true ->
     generateDynamicSchema (get payload "format") = Returns dynamicSchema ->
     attempt_succeeds ext (prospective ext payload) dynamicSchema
       (List.length (openai_requests w)) attempts result ->
     let total := total_reported ext (prospective ext payload)
                    (List.length (openai_requests w)) attempts in
     snd (post_v1 ext ctx w)
     = Responded {| status := 200; error := NoError; data := result;
                    tokensUsed := Some total |}
     /\ openai_requests (fst (post_v1 ext ctx w))
        = (openai_requests w
           ++ repeat (prospective ext payload) attempts)%list
     /\ tokens_used (fst (post_v1 ext ctx w))
        = (tokens_used w
           ++ [{| used := total; used_user_id := user_id |}])%list)
  /\ (forall w' response,
        post_v1 ext ctx w = (w', Responded response) ->
        status response = 200 ->
        exists user_id balance payload dynamicSchema (attempts : nat),
          authenticated ctx w user_id balance
          /\ body_parses ctx payload
          /\ generateDynamicSchema (get payload "format")
             = Returns dynamicSchema
          /\ attempt_succeeds ext (prospective ext payload) dynamicSchema
               (List.length (openai_requests w)) attempts (data response)
          /\ openai_requests w'
             = (openai_requests w
                ++ repeat (prospective ext payload) attempts)%list
          /\ tokens_used w'
             = (tokens_used w ++
                [{| used := total_reported ext (prospective ext payload)
                              (List.length (openai_requests w)) attempts;
                    used_user_id := user_id |}])%list
          /\ tokensUsed response
             = Some (total_reported ext (prospective ext payload)
                       (List.length (openai_requests w)) attempts)).
Proof.
  split.
  - intros user_id balance payload dynamicSchema attempts result
      Hauth Hbody Hgate Hschema Hsucceeds total.
    set (config := prospective ext payload) in *.
    set (w0 := console_log
                 (LogEstimate balance (GPTTokens_usedTokens ext config)) w).
    destruct (generation_attempts ext config dynamicSchema w0 result attempts
                Hsucceeds) as [w2 [Hgen [Hreq [Hused _]]]].
    assert (post_v1 ext ctx w
            = (update_credits user_id (number_sub balance (Num total))
                 (insert_tokens_used
                    {| used := total; used_user_id := user_id |} w2),
               Responded {| status := 200; error := NoError; data := result;
                            tokensUsed := Some total |})) as Hpost.
    { rewrite (post_v1_authenticated ext ctx w user_id balance Hauth).
      rewrite (metered_body_parses ext user_id balance ctx payload w Hbody).
      cbv zeta. fold config. rewrite Hgate. fold w0.
      unfold fulfil, bind, eval, await, effect, return_. rewrite Hschema.
      rewrite Hgen. reflexivity. }
    rewrite Hpost. simpl. rewrite Hreq, Hused. repeat split.
  - intros w' response Hreply Hstatus.
    unfold post_v1, handler, try_catch, bind, eval, query in Hreply.
    destruct (parse apiTokenSchema (header_X_API_KEY ctx)) as [apiToken |]
      eqn:Hkey;
      [| injection Hreply as <- <-; discriminate].
    destruct (select_key (text_of apiToken) w) as [keyRow |] eqn:Hrow;
      [| injection Hreply as <- <-; discriminate].
    destruct (select_tokens (key_user_id keyRow) w) as [tokensRow |]
      eqn:Hcred;
      [| injection Hreply as <- <-; discriminate].
    destruct (metered ext (key_user_id keyRow) (credits tokensRow) ctx w)
      as [w1 [[] | response1 | e |]] eqn:Hflow; try discriminate.
    injection Hreply as -> ->.
    assert (exists body payload,
               req_json ctx = Returns body
               /\ parse payloadSchema body = Returns payload)
      as [body [payload [Hbody Hpayload]]].
    { unfold metered, bind, eval in Hflow.
      destruct (req_json ctx) as [body |]; [| discriminate].
      destruct (parse payloadSchema body) as [payload |] eqn:Hpayload;
        [| discriminate].
      now exists body, payload. }
    assert (body_parses ctx payload) as Hparses by (now exists body).
    rewrite (metered_body_parses ext _ _ ctx payload w Hparses) in Hflow.
    cbv zeta in Hflow.
    destruct (enough_credits (credits tokensRow)
                (GPTTokens_usedTokens ext (prospective ext payload)));
      [| injection Hflow as <- <-; discriminate].
    unfold fulfil, bind, eval, await, effect, return_ in Hflow.
    destruct (generateDynamicSchema (get payload "format"))
      as [dynamicSchema |] eqn:Hschema; [| discriminate].
    destruct (generation ext (prospective ext payload) dynamicSchema
                (console_log
                   (LogEstimate (credits tokensRow)
                      (GPTTokens_usedTokens ext (prospective ext payload)))
                   w))
      as [w2 [[data_ t] | e |]] eqn:Hgen; try discriminate.
    injection Hflow as <- <-.
    destruct (generation_resolved _ _ _ _ _ _ _ Hgen)
      as [attempts [Hcount [Hreq [Ht [Hused [_ [_ Hsucceeds]]]]]]].
    exists (key_user_id keyRow), (credits tokensRow), payload, dynamicSchema,
      attempts.
    simpl in Hreq, Ht, Hused, Hsucceeds. simpl. rewrite Hreq, Hused, Ht.
    repeat split; try assumption; try reflexivity.
    exists apiToken, keyRow, tokensRow. repeat split; assumption.
Qed.

Lemma usage_recorded_once_witness :
  let ext := Sample.ext 100 [Sample.answers Sample.text_wrong 7;
                             Sample.answers Sample.text_jane 5] in
  let end_ := post_v1 ext (Sample.request Sample.good_body)
                (Sample.store 500) in
  attempt_succeeds ext (prospective ext Sample.good_body)
    (object [("name", nullable (string_ None None))]) 0 2
    (VObj [("name", VStr "Jane")])
  /\ snd end_ = Responded {| status := 200; error := NoError;
                             data := VObj [("name", VStr "Jane")];
                             tokensUsed := Some 12 |}
  /\ List.length (openai_requests (fst end_)) = 2%nat
  /\ tokens_used (fst end_) = [{| used := 12; used_user_id := "user-1" |}].
Proof.
  intros ext end_.
  assert (attempt_succeeds ext (prospective ext Sample.good_body)
            (object [("name", nullable (string_ None None))]) 0 2
            (VObj [("name", VStr "Jane")])) as Hsucceeds.
  { right. split; [reflexivity | split].
    - eexists. do 3 eexists. repeat split; reflexivity.
    - do 4 eexists. repeat split; reflexivity. }
  split; [exact Hsucceeds |].
  destruct (proj1 (usage_recorded_once ext
                     (Sample.request Sample.good_body) (Sample.store 500))
              "user-1" (Num 500) Sample.good_body
              (object [("name", nullable (string_ None None))]) 2%nat
              (VObj [("name", VStr "Jane")])
              ltac:(sample_premise) ltac:(sample_premise)
              ltac:(reflexivity) ltac:(reflexivity) Hsucceeds)
    as [Hreply [Hreq Hused]].
  split; [exact Hreply | split; [| exact Hused]].
  unfold end_. now rewrite Hreq.
Defined.

(* ===================================================================== *)
(** * Further properties *)
(* ===================================================================== *)

(** ** The synthesizer: errors, form and keys of the schema *)

Lemma leaf_schema_form type : synthesized_form (leaf_schema type) = true.
Proof.
  unfold leaf_schema.
  destruct (String.eqb type "string"); [reflexivity |].
  destruct (String.eqb type "boolean"); [reflexivity |].
  destruct (String.eqb type "number"); reflexivity.
Qed.

(** What the loop over the fields leaves in [shape]: one entry per field
    other than ["type"], in order, holding the schema of that field. *)
Lemma for_in_shape_entries fields :
  forall shape,
    for_in_shape generateDynamicSchema fields = Returns shape ->
    map fst shape = kept_keys fields
    /\ forall k c, In (k, c) shape ->
         k <> "type"
         /\ exists x, In (k, x) fields /\ generateDynamicSchema x = Returns c.
Proof.
  unfold kept_keys.
  induction fields as [| [k x] rest IH]; intros shape; simpl.
  - intros [= <-]. split; [reflexivity | intros ? ? []].
  - destruct (String.eqb k "type") eqn:E; simpl.
    + intros Hrest. destruct (IH shape Hrest) as [Hkeys Hin].
      split; [exact Hkeys |].
      intros k' c Hc. destruct (Hin k' c Hc) as [Hne [x' [Hx' Hgen]]].
      split; [exact Hne |]. exists x'. split; [now right | exact Hgen].
    + destruct (generateDynamicSchema x) as [child |] eqn:Hx; simpl;
        [| discriminate].
      destruct (for_in_shape generateDynamicSchema rest) as [shape' |];
        simpl; [| discriminate].
      intros [= <-]. destruct (IH shape' eq_refl) as [Hkeys Hin].
      split; [simpl; now rewrite Hkeys |].
      intros k' c [[= <- <-] | Hc].
      * split; [now apply String.eqb_neq |].
        exists x. split; [now left | exact Hx].
      * destruct (Hin k' c Hc) as [Hne [x' [Hx' Hgen]]].
        split; [exact Hne |]. exists x'. split; [now right | exact Hgen].
Qed.

Lemma for_in_shape_returns fields :
  (forall k x, In (k, x) fields ->
     exists c, generateDynamicSchema x = Returns c) ->
  exists shape, for_in_shape generateDynamicSchema fields = Returns shape.
Proof.
  induction fields as [| [k x] rest IH]; intros Hall; simpl.
  - now exists [].
  - destruct IH as [shape' Hrest].
    { intros k' x' Hin. apply (Hall k' x'). now right. }
    destruct (String.eqb k "type"); [now exists shape' |].
    destruct (Hall k x (or_introl eq_refl)) as [c Hc].
    rewrite Hc, Hrest. simpl. now eexists.
Qed.

Lemma for_in_shape_throws fields e :
  for_in_shape generateDynamicSchema fields = Throws e ->
  exists k x, In (k, x) fields /\ generateDynamicSchema x = Throws e.
Proof.
  induction fields as [| [k x] rest IH]; simpl; [discriminate |].
  destruct (String.eqb k "type").
  - intros H. destruct (IH H) as [k' [x' [Hin Hx]]].
    exists k', x'. split; [now right | exact Hx].
  - destruct (generateDynamicSchema x) as [c |] eqn:Hx; simpl.
    + destruct (for_in_shape generateDynamicSchema rest) as [shape' |];
        simpl; [discriminate |].
      intros [= <-]. destruct (IH eq_refl) as [k' [x' [Hin Hx']]].
      exists k', x'. split; [now right | exact Hx'].
    + intros [= <-]. exists k, x. split; [now left | exact Hx].
Qed.

Lemma index0_object_child fields :
  index0 (VObj fields) = VUndefined
  \/ In ("0", index0 (VObj fields)) fields.
Proof.
  simpl. induction fields as [| [k x] rest IH]; simpl; [now left |].
  destruct (String.eqb k "0") eqn:E.
  - apply String.eqb_eq in E. subst k. right. now left.
  - destruct IH as [IH | IH]; [now left | right; now right].
Qed.

Lemma inferDataType_object_returns fields :
  has_key "hasOwnProperty" fields = false ->
  exists type, inferDataType (VObj fields) = Returns type.
Proof.
  intros Hown. unfold inferDataType, hasOwnProperty_type. rewrite Hown.
  simpl. destruct (has_key "type" fields); simpl; [| now eexists].
  destruct (assoc "type" fields); now eexists.
Qed.

Lemma generateDynamicSchema_no_shadow template :
  no_shadow template = true ->
  exists schema, generateDynamicSchema template = Returns schema.
Proof.
  induction template as [| | b | n | s | items IH | fields IH]
    using value_induction; intros Hclean;
    try (eexists; reflexivity).
  - rewrite generateDynamicSchema_array.
    destruct items as [| first rest]; simpl index0.
    + now eexists.
    + simpl in Hclean. apply andb_true_iff in Hclean.
      destruct (IH first (or_introl eq_refl) (proj1 Hclean)) as [item ->].
      now eexists.
  - simpl in Hclean. apply andb_true_iff in Hclean.
    destruct Hclean as [Hown Hchildren]. apply negb_true_iff in Hown.
    rewrite forallb_forall in Hchildren.
    assert (forall k x, In (k, x) fields ->
              exists c, generateDynamicSchema x = Returns c) as Hall.
    { intros k x Hin. apply (IH k x Hin). apply (Hchildren (k, x) Hin). }
    rewrite generateDynamicSchema_object.
    destruct (inferDataType_object_returns fields Hown) as [type ->].
    simpl.
    destruct (String.eqb type "object").
    + destruct (for_in_shape_returns fields Hall) as [shape ->].
      now eexists.
    + destruct (String.eqb type "array"); [| now eexists].
      rewrite at_property_0_index0.
      destruct (index0_object_child fields) as [-> | Hin].
      * now eexists.
      * destruct (Hall _ _ Hin) as [c ->]. now eexists.
Qed.

Lemma generateDynamicSchema_throws_TypeError template e :
  generateDynamicSchema template = Throws e -> e = TypeError.
Proof.
  induction template as [| | b | n | s | items IH | fields IH]
    using value_induction; try discriminate.
  - rewrite generateDynamicSchema_array.
    destruct items as [| first rest]; simpl index0; [discriminate |].
    destruct (generateDynamicSchema first) as [item |] eqn:Hfirst; simpl;
      [discriminate |].
    intros [= <-]. apply (IH first (or_introl eq_refl) Hfirst).
  - rewrite generateDynamicSchema_object.
    destruct (inferDataType (VObj fields)) as [type | e'] eqn:Htype; simpl.
    + destruct (String.eqb type "object").
      * destruct (for_in_shape generateDynamicSchema fields) as [shape | e']
          eqn:Hshape; simpl; [discriminate |].
        intros [= <-].
        destruct (for_in_shape_throws fields e' Hshape) as [k [x [Hin Hx]]].
        apply (IH k x Hin Hx).
      * destruct (String.eqb type "array"); [| discriminate].
        rewrite at_property_0_index0.
        destruct (generateDynamicSchema (index0 (VObj fields)))
          as [item | e'] eqn:Hitem; simpl; [discriminate |].
        intros [= <-].
        destruct (index0_object_child fields) as [Hu | Hin].
        { rewrite Hu in Hitem. discriminate. }
        apply (IH _ _ Hin Hitem).
    + intros [= <-]. apply (inferDataType_throws_TypeError _ _ Htype).
Qed.

(** X1: the synthesizer returns a schema for every template in which no
    object has an own property named [hasOwnProperty]; the only error it
    ever throws is the [TypeError] of calling such a property, and an
    object that has one at the top makes it throw. *)
Theorem synthesizer_fails_only_on_shadowed_method (template : value) :
  (no_shadow template = true ->
   exists schema, generateDynamicSchema template = Returns schema)
  /\ (forall e, generateDynamicSchema template = Throws e -> e = TypeError)
  /\ (shadows_hasOwnProperty template = true ->
      generateDynamicSchema template = Throws TypeError).
Proof.
  split; [apply generateDynamicSchema_no_shadow | split].
  - intros e. apply generateDynamicSchema_throws_TypeError.
  - destruct template as [| | b | n | s | items | fields]; try discriminate.
    simpl shadows_hasOwnProperty. intros Hown.
    rewrite generateDynamicSchema_object.
    unfold inferDataType, hasOwnProperty_type. now rewrite Hown.
Qed.

Lemma synthesizer_fails_only_on_shadowed_method_witness :
  no_shadow (VObj [("tags", VArr []); ("n", VNull)]) = true
  /\ (exists schema,
        generateDynamicSchema (VObj [("tags", VArr []); ("n", VNull)])
        = Returns schema)
  /\ generateDynamicSchema (VObj [("hasOwnProperty", VBool true)])
     = Throws TypeError.
Proof.
  split; [reflexivity | split].
  - apply (synthesizer_fails_only_on_shadowed_method
             (VObj [("tags", VArr []); ("n", VNull)])). reflexivity.
  - apply (synthesizer_fails_only_on_shadowed_method
             (VObj [("hasOwnProperty", VBool true)])). reflexivity.
Defined.

Lemma synthesized_form_plain template :
  plain template = true ->
  forall schema,
    generateDynamicSchema template = Returns schema ->
    synthesized_form schema = true.
Proof.
  induction template as [| | b | n | s | items IH | fields IH]
    using value_induction; intros Hplain schema;
    try (intros [= <-]; reflexivity).
  - rewrite generateDynamicSchema_array.
    destruct items as [| first rest]; simpl index0.
    + intros [= <-]. reflexivity.
    + destruct (generateDynamicSchema first) as [item |] eqn:Hfirst; simpl;
        [| discriminate].
      intros [= <-]. simpl.
      apply (IH first (or_introl eq_refl)); [| exact Hfirst].
      simpl in Hplain. now apply andb_true_iff in Hplain.
  - destruct (plain_fields _ Hplain) as [_ Hchildren].
    pose proof (plain_no_prototype _ Hplain) as Hproto.
    rewrite generateDynamicSchema_object.
    destruct (inferDataType (VObj fields)) as [type |]; simpl;
      [| discriminate].
    destruct (String.eqb type "object").
    + destruct (for_in_shape generateDynamicSchema fields) as [shape |]
        eqn:Hshape; simpl; [| discriminate].
      intros [= <-]. simpl. apply forallb_forall. intros [k c] Hin.
      destruct (for_in_shape_entries fields shape Hshape) as [_ Hall].
      destruct (Hall k c Hin) as [Hne [x [Hx Hgen]]].
      simpl. rewrite !andb_true_iff, !negb_true_iff. repeat split.
      * now apply String.eqb_neq.
      * apply String.eqb_neq. intros ->. apply Hproto.
        apply in_map_iff. now exists ("__proto__", x).
      * apply (IH k x Hx (Hchildren k x Hx) c Hgen).
    + destruct (String.eqb type "array").
      * rewrite at_property_0_index0.
        destruct (generateDynamicSchema (index0 (VObj fields)))
          as [item |] eqn:Hitem; simpl; [| discriminate].
        intros [= <-]. simpl.
        destruct (index0_object_child fields) as [Hu | Hin].
        { rewrite Hu in Hitem. injection Hitem as <-. reflexivity. }
        apply (IH _ _ Hin (Hchildren _ _ Hin) item Hitem).
      * intros [= <-]. apply leaf_schema_form.
Qed.

Lemma run_entries_some entries input :
  (forall k s, In (k, s) entries -> forall x, run s x <> Crashes) ->
  run_entries run entries input <> None.
Proof.
  induction entries as [| [k s] more IH]; simpl; [discriminate |].
  intros Hall.
  pose proof (Hall k s (or_introl eq_refl) (get input k)) as Hhead.
  assert (run_entries run more input <> None) as Hmore.
  { apply IH. intros k' s' Hin. apply (Hall k' s'). now right. }
  destruct (run s (get input k)) as [out | found |]; [| | contradiction];
    destruct (run_entries run more input) as [[outs rest] |];
    (contradiction || discriminate).
Qed.

Lemma run_items_some item :
  (forall x, run item x <> Crashes) ->
  forall items j, run_items run item j items <> None.
Proof.
  intros Hitem. induction items as [| y more IH]; intros j; simpl;
    [discriminate |].
  pose proof (Hitem y) as Hhead. pose proof (IH (S j)) as Hmore.
  destruct (run item y) as [out | found |]; [| | contradiction];
    destruct (run_items run item (S j) more) as [[outs rest] |];
    (contradiction || discriminate).
Qed.

Lemma collect_Crashes (A : Type) (wrap : A -> value) collected :
  collect wrap collected = Crashes -> collected = None.
Proof.
  destruct collected as [[outs issues] |]; [| reflexivity].
  simpl. destruct issues; discriminate.
Qed.

(** Running a schema of that form never calls the run method of something
    that is not a schema. *)
Lemma synthesized_form_no_crash schema :
  synthesized_form schema = true ->
  forall input, run schema input <> Crashes.
Proof.
  induction schema as [lo hi | | | w IH | item IH | entries IH | entries IH]
    using Schema_induction; intros Hform input; try discriminate.
  - destruct w as [[|] [|] | | | | | |]; try discriminate;
      destruct input as [| | | [|] | | |]; discriminate.
  - rewrite run_array. destruct input; try discriminate.
    intros Hrun. apply collect_Crashes in Hrun.
    apply (run_items_some item (IH Hform) _ _ Hrun).
  - simpl in Hform. rewrite forallb_forall in Hform.
    rewrite run_object. destruct (is_object_like input); [| discriminate].
    assert (has_prototype entries = false) as ->.
    { apply not_true_is_false. intros Hhas.
      apply existsb_exists in Hhas. destruct Hhas as [e [Hin He]].
      specialize (Hform e Hin). rewrite He in Hform.
      now rewrite andb_false_r in Hform. }
    intros Hrun. apply collect_Crashes in Hrun.
    apply (run_entries_some entries input); [| exact Hrun].
    intros k s Hin. apply (IH k s Hin).
    specialize (Hform (k, s) Hin). now apply andb_true_iff in Hform.
Qed.

(** X2: every schema the synthesizer returns for a plain template is made
    of nullable string, boolean and number leaves (without length bounds),
    arrays and objects only; no object schema in it has an entry named
    ["type"] or a prototype installed under ["__proto__"]; and validating
    against it ends in an output or in a [ValiError], never in a
    [TypeError]. *)
Theorem synthesized_schema_form (template : value) (schema : Schema) :
  plain template = true ->
  generateDynamicSchema template = Returns schema ->
  synthesized_form schema = true
  /\ forall input, parse schema input <> Throws TypeError.
Proof.
  intros Hplain Hschema.
  pose proof (synthesized_form_plain template Hplain schema Hschema)
    as Hform.
  split; [exact Hform |].
  intros input. unfold parse.
  destruct (run schema input) eqn:Hrun; try discriminate.
  destruct (synthesized_form_no_crash schema Hform input Hrun).
Qed.

Lemma synthesized_schema_form_witness :
  plain (VObj [("name", VObj [("type", VStr "string")]); ("tags", VArr [])])
  = true
  /\ generateDynamicSchema
       (VObj [("name", VObj [("type", VStr "string")]); ("tags", VArr [])])
     = Returns (object [("name", nullable (string_ None None));
                        ("tags", array (nullable (string_ None None)))])
  /\ synthesized_form
       (object [("name", nullable (string_ None None));
                ("tags", array (nullable (string_ None None)))]) = true.
Proof.
  split; [reflexivity | split; [reflexivity |]].
  apply (synthesized_schema_form
           (VObj [("name", VObj [("type", VStr "string")]);
                  ("tags", VArr [])]) _ eq_refl eq_refl).
Defined.

(** A template with a field named ["__proto__"] still has a schema, but
    the assignment under that name installs a prototype: validating an
    object against the schema throws a [TypeError], whatever the object
    holds. *)
Lemma prototype_field_crashes fields shape input :
  generateDynamicSchema (VObj fields) = Returns (object shape) ->
  inferred (VObj fields) "object" = true ->
  In "__proto__" (map fst fields) ->
  is_object_like input = true ->
  parse (object shape) input = Throws TypeError.
Proof.
  intros Hschema Hkind Hin Hobj.
  destruct (object_schema _ _ Hkind Hschema) as [shape' [Heq Hshape]].
  injection Heq as <-.
  destruct (for_in_shape_entries fields shape (Hshape fields eq_refl))
    as [Hkeys _].
  unfold parse. rewrite run_object, Hobj.
  assert (has_prototype shape = true) as ->; [| reflexivity].
  apply existsb_exists.
  assert (In "__proto__" (map fst shape)) as Hk.
  { rewrite Hkeys. unfold kept_keys. apply filter_In. now split. }
  apply in_map_iff in Hk. destruct Hk as [e [He Hine]].
  exists e. split; [exact Hine |]. rewrite He. reflexivity.
Qed.

(** X3: the schema of a plain node inferred as object has exactly one
    entry per field of the node other than ["type"], under the same key
    and in the same order, and no prototype installed under
    ["__proto__"]. *)
Theorem object_schema_keys
    (fields : list (string * value)) (schema : Schema) :
  plain (VObj fields) = true ->
  inferred (VObj fields) "object" = true ->
  generateDynamicSchema (VObj fields) = Returns schema ->
  exists shape,
    schema = object shape
    /\ map fst shape = kept_keys fields
    /\ has_prototype shape = false.
Proof.
  intros Hplain Hkind Hschema.
  destruct (object_schema _ _ Hkind Hschema) as [shape [-> Hshape]].
  exists shape. split; [reflexivity | split].
  - apply (for_in_shape_entries fields shape (Hshape fields eq_refl)).
  - apply (for_in_shape_has_prototype _ _ _ (Hshape fields eq_refl)
             (plain_no_prototype _ Hplain)).
Qed.

Lemma object_schema_keys_witness :
  inferred (VObj [("type", VStr "object"); ("a", VNum (Num 1));
                  ("b", VStr "x")]) "object" = true
  /\ exists shape,
       generateDynamicSchema
         (VObj [("type", VStr "object"); ("a", VNum (Num 1)); ("b", VStr "x")])
       = Returns (object shape)
       /\ map fst shape = ["a"; "b"].
Proof.
  split; [reflexivity |].
  destruct (object_schema_keys
              [("type", VStr "object"); ("a", VNum (Num 1)); ("b", VStr "x")]
              (object [("a", nullable number_);
                       ("b", nullable (string_ None None))])
              eq_refl eq_refl eq_refl) as [shape [Heq [Hkeys _]]].
  exists shape. split; [now rewrite <- Heq | exact Hkeys].
Defined.

(** ** Validation: outputs, keys and the round trip *)

Lemma settle_Issues output issues found :
  settle output issues = Issues found -> found <> [].
Proof. destruct issues; simpl; [discriminate | now intros [= <-]]. Qed.

Lemma settle_Typed output issues out :
  settle output issues = Typed out -> issues = [] /\ out = output.
Proof. destruct issues; simpl; [now intros [= <-] | discriminate]. Qed.

Lemma collect_Issues (A : Type) (wrap : A -> value) collected found :
  collect wrap collected = Issues found -> found <> [].
Proof.
  destruct collected as [[outs issues] |]; simpl;
    [apply settle_Issues | discriminate].
Qed.

Lemma collect_Typed (A : Type) (wrap : A -> value) collected out :
  collect wrap collected = Typed out ->
  exists outs, collected = Some (outs, []) /\ out = wrap outs.
Proof.
  destruct collected as [[outs issues] |]; simpl; [| discriminate].
  intros H. destruct (settle_Typed _ _ _ H) as [-> ->]. now exists outs.
Qed.

(** A dataset with issues has at least one. *)
Lemma run_issues_nonempty schema :
  forall input found, run schema input = Issues found -> found <> [].
Proof.
  induction schema as [lo hi | | | w IH | item IH | entries IH | entries IH]
    using Schema_induction; intros input found.
  - simpl. destruct input; try (intros [= <-]; discriminate).
    apply settle_Issues.
  - simpl. destruct input; try (intros [= <-]; discriminate).
  - simpl.
    destruct input as [| | | [| z] | | |]; try (intros [= <-]; discriminate).
  - simpl. destruct input; try apply IH. discriminate.
  - rewrite run_array. destruct input; try (intros [= <-]; discriminate).
    apply collect_Issues.
  - rewrite run_object.
    destruct (is_object_like input); [| intros [= <-]; discriminate].
    destruct (has_prototype entries); [discriminate |]. apply collect_Issues.
  - rewrite run_looseObject.
    destruct (is_object_like input); [| intros [= <-]; discriminate].
    destruct (has_prototype entries); [discriminate |]. apply collect_Issues.
Qed.

Lemma issues_empty (f : issue -> issue) found (rest : list issue) :
  (map f found ++ rest)%list = [] -> found = [] /\ rest = [].
Proof.
  destruct found; simpl; [now intros -> | discriminate].
Qed.

(** ** Containers are not nullable *)

Lemma run_entries_fails entries input key child :
  In (key, child) entries ->
  fails child (get input key) ->
  forall outs, run_entries run entries input <> Some (outs, []).
Proof.
  induction entries as [| [k s] more IH]; simpl; [tauto |].
  intros [Heq | Hin] Hfail outs.
  - inversion Heq; subst.
    destruct (run child (get input key)) as [out | found |] eqn:Hrun.
    + now destruct (Hfail out).
    + destruct (run_entries run more input) as [[outs' issues] |];
        [| discriminate].
      intros [= _ Hnone]. apply issues_empty in Hnone.
      destruct Hnone as [-> _]. now apply (run_issues_nonempty _ _ _ Hrun).
    + discriminate.
  - pose proof (IH Hin Hfail) as Hmore.
    destruct (run s (get input k)) as [out | found |];
      destruct (run_entries run more input) as [[outs' issues] |];
      try discriminate.
    + intros [= _ ->]. now apply (Hmore outs').
    + intros [= _ Hnone]. apply issues_empty in Hnone.
      destruct Hnone as [_ ->]. now apply (Hmore outs').
Qed.

Lemma run_items_fails item x items :
  In x items ->
  fails item x ->
  forall j outs, run_items run item j items <> Some (outs, []).
Proof.
  induction items as [| y more IH]; simpl; [tauto |].
  intros [Heq | Hin] Hfail j outs.
  - subst y.
    destruct (run item x) as [out | found |] eqn:Hrun.
    + now destruct (Hfail out).
    + destruct (run_items run item (S j) more) as [[outs' issues] |];
        [| discriminate].
      intros [= _ Hnone]. apply issues_empty in Hnone.
      destruct Hnone as [-> _]. now apply (run_issues_nonempty _ _ _ Hrun).
    + discriminate.
  - pose proof (IH Hin Hfail (S j)) as Hmore.
    destruct (run item y) as [out | found |];
      destruct (run_items run item (S j) more) as [[outs' issues] |];
      try discriminate.
    + intros [= _ ->]. now apply (Hmore outs').
    + intros [= _ Hnone]. apply issues_empty in Hnone.
      destruct Hnone as [_ ->]. now apply (Hmore outs').
Qed.

Lemma null_at_container path :
  forall template node schema document,
    generateDynamicSchema template = Returns schema ->
    template_at path template = Some node ->
    inferred node "object" || inferred node "array" = true ->
    document_at path document = VNull ->
    fails schema document.
Proof.
  induction path as [| [key | i] rest IH];
    intros template node schema document Hschema Hnode Hkind Hnull.
  - simpl in Hnode, Hnull. injection Hnode as <-. subst document.
    apply orb_true_iff in Hkind. destruct Hkind as [Hk | Hk].
    + destruct (object_schema _ _ Hk Hschema) as [shape [-> _]].
      intros out. rewrite run_object. discriminate.
    + destruct (array_schema _ _ Hk Hschema) as [item [-> _]].
      intros out. rewrite run_array. discriminate.
  - simpl in Hnode, Hnull.
    destruct template as [| | b | n | s | items | fields]; try discriminate.
    destruct (inferred (VObj fields) "object") eqn:Hobj; [| discriminate].
    destruct (String.eqb key "type") eqn:Hkey; [discriminate |].
    destruct (has_key key fields) eqn:Hhas; [| discriminate].
    simpl in Hnode. apply String.eqb_neq in Hkey.
    destruct (object_schema _ _ Hobj Hschema) as [shape [-> Hshape]].
    destruct (for_in_shape_entry fields shape key (Hshape _ eq_refl)
                Hkey Hhas) as [child [Hchild Hin]].
    pose proof (IH _ _ _ _ Hchild Hnode Hkind Hnull) as Hfail.
    intros out. rewrite run_object.
    destruct (is_object_like document); [| discriminate].
    destruct (has_prototype shape); [discriminate |].
    intros Hrun. destruct (collect_Typed _ _ _ _ Hrun) as [outs [Hsome _]].
    apply (run_entries_fails _ _ _ _ Hin Hfail outs Hsome).
  - simpl in Hnode, Hnull.
    destruct (inferred template "array") eqn:Harr; [| discriminate].
    destruct (array_schema _ _ Harr Hschema) as [item [-> Hitem]].
    destruct document as [| | b | n | s | items | fields]; try discriminate.
    pose proof (IH _ _ _ _ Hitem Hnode Hkind Hnull) as Hfail.
    assert (In (nth i items VUndefined) items) as Hin.
    { destruct (Nat.lt_ge_cases i (List.length items)) as [Hlt | Hge].
      - now apply nth_In.
      - rewrite (nth_overflow _ _ Hge), document_at_undefined in Hnull.
        discriminate. }
    intros out. rewrite run_array.
    intros Hrun. destruct (collect_Typed _ _ _ _ Hrun) as [outs [Hsome _]].
    apply (run_items_fails _ _ _ Hin Hfail 0%nat outs Hsome).
Qed.

(** C10, counterexample: an object node the synthesizer does not walk is
    no part of the schema.  The second element of the template
    [[1, {a: 1}]] is inferred as object, but every item is described by
    the first element, so [[1, null]] validates; and an object under a
    field named ["type"] is skipped, so [null] there is accepted too. *)
Lemma null_at_unwalked_container_validates :
  (inferred (VObj [("a", VNum (Num 1))]) "object" = true
   /\ generateDynamicSchema (VArr [VNum (Num 1); VObj [("a", VNum (Num 1))]])
      = Returns (array (nullable number_))
   /\ document_at [Item 1] (VArr [VNum (Num 1); VNull]) = VNull
   /\ parse (array (nullable number_)) (VArr [VNum (Num 1); VNull])
      = Returns (VArr [VNum (Num 1); VNull]))
  /\ (generateDynamicSchema
        (VObj [("type", VObj [("a", VNum (Num 1))]); ("b", VNum (Num 1))])
      = Returns (object [("b", nullable number_)])
      /\ document_at [Field "type"]
           (VObj [("type", VNull); ("b", VNum (Num 1))]) = VNull
      /\ parse (object [("b", nullable number_)])
           (VObj [("type", VNull); ("b", VNum (Num 1))])
         = Returns (VObj [("b", VNum (Num 1))])).
Proof. repeat split. Qed.

(** C10, as amended: wherever the synthesizer infers an object (or an
    array) at a position it walks -- the fields of an object other than
    ["type"], and the items of an array, all described by [schema[0]] --
    a document with [null] at that position does not validate: [parse]
    throws.  For a plain template what it throws is a [ValiError] with at
    least one issue. *)
Theorem null_at_container_rejected
    (path : list step) (template node : value) (schema : Schema)
    (document : value) :
  generateDynamicSchema template = Returns schema ->
  template_at path template = Some node ->
  inferred node "object" || inferred node "array" = true ->
  document_at path document = VNull ->
  (exists e, parse schema document = Throws e)
  /\ (plain template = true ->
      exists i rest, parse schema document = Throws (ValiError (i :: rest))).
Proof.
  intros Hschema Hnode Hkind Hnull.
  pose proof (null_at_container path _ _ _ _ Hschema Hnode Hkind Hnull)
    as Hfail.
  unfold parse.
  destruct (run schema document) as [out | found |] eqn:Hrun.
  - now destruct (Hfail out).
  - split; [eauto |]. intros _.
    destruct found as [| i rest]; [| eauto].
    now destruct (run_issues_nonempty _ _ _ Hrun).
  - split; [eauto |]. intros Hplain.
    destruct (synthesized_form_no_crash schema
                (synthesized_form_plain template Hplain schema Hschema)
                document Hrun).
Qed.

Lemma null_at_container_rejected_witness :
  let template := VObj [("user", VObj [("name", VStr "x")])] in
  let schema := object [("user", object [("name", nullable (string_ None None))])] in
  let document := VObj [("user", VNull)] in
  generateDynamicSchema template = Returns schema
  /\ template_at [Field "user"] template = Some (VObj [("name", VStr "x")])
  /\ document_at [Field "user"] document = VNull
  /\ plain template = true
  /\ exists i rest, parse schema document = Throws (ValiError (i :: rest)).
Proof.
  split; [reflexivity | split; [reflexivity | split; [reflexivity |]]].
  split; [reflexivity |].
  apply (null_at_container_rejected [Field "user"]
           (VObj [("user", VObj [("name", VStr "x")])])
           (VObj [("name", VStr "x")]) _ (VObj [("user", VNull)]));
    reflexivity.
Defined.

Lemma assoc_In k x fields :
  NoDup (map fst fields) -> In (k, x) fields -> assoc k fields = x.
Proof.
  induction fields as [| [k0 x0] rest IH]; simpl; [tauto |].
  intros Hnd [[= -> ->] | Hin]; inversion Hnd as [| ? ? Hout Hnd']; subst.
  - now rewrite String.eqb_refl.
  - destruct (String.eqb k0 k) eqn:E; [| now apply IH].
    apply String.eqb_eq in E. subst k0. exfalso. apply Hout.
    apply in_map_iff. now exists (k, x).
Qed.

Lemma assoc_app_In k x fields others :
  NoDup (map fst fields) -> In (k, x) fields ->
  assoc k (fields ++ others) = x.
Proof.
  induction fields as [| [k0 x0] rest IH]; simpl; [tauto |].
  intros Hnd [[= -> ->] | Hin]; inversion Hnd as [| ? ? Hout Hnd']; subst.
  - now rewrite String.eqb_refl.
  - destruct (String.eqb k0 k) eqn:E; [| now apply IH].
    apply String.eqb_eq in E. subst k0. exfalso. apply Hout.
    apply in_map_iff. now exists (k, x).
Qed.

Lemma NoDup_distinct_keys keys_ seen :
  NoDup keys_ -> (forall k, In k keys_ -> ~ In k seen) ->
  distinct_keys seen keys_ = true.
Proof.
  revert seen. induction keys_ as [| k rest IH]; intros seen Hnd Hout; simpl;
    [reflexivity |].
  inversion Hnd as [| ? ? Hk Hnd']; subst.
  apply andb_true_iff. split.
  - apply negb_true_iff. destruct (existsb (String.eqb k) seen) eqn:E;
      [| reflexivity].
    apply existsb_exists in E. destruct E as [k' [Hin Heq]].
    apply String.eqb_eq in Heq. subst k'.
    exfalso. apply (Hout k); [now left | exact Hin].
  - apply IH; [exact Hnd' |].
    intros k' Hin [<- | Hseen]; [contradiction |].
    apply (Hout k'); [now right | exact Hseen].
Qed.

Section RunAgain.
Variable entries : list (string * Schema).
Hypothesis again : forall k s, In (k, s) entries ->
  forall x out, run s x = Typed out -> run s out = Typed out.

(** The outputs of a run without issues: one per entry, under its key, and
    fixed by a second run on any document that holds them. *)
Lemma run_entries_again input outs :
  run_entries run entries input = Some (outs, []) ->
  map fst outs = map fst entries
  /\ forall doc,
       (forall k out, In (k, out) outs -> get doc k = out) ->
       run_entries run entries doc = Some (outs, []).
Proof.
  revert outs again.
  induction entries as [| [k s] rest IH]; intros outs again; simpl.
  - intros [= <-]. split; [reflexivity | reflexivity].
  - assert (forall k' s', In (k', s') rest ->
              forall x out, run s' x = Typed out -> run s' out = Typed out)
      as again'.
    { intros k' s' Hin. apply (again k' s'). now right. }
    destruct (run s (get input k)) as [out | found |] eqn:Hrun;
      [| | discriminate];
      destruct (run_entries run rest input) as [[outs' issues'] |] eqn:Hrest;
      try discriminate.
    + intros [= <- ->].
      destruct (IH outs' again' eq_refl) as [Hkeys Hdoc].
      split; [simpl; now rewrite Hkeys |].
      intros doc Hget.
      rewrite (Hdoc doc); [| intros k' o Hin; apply Hget; now right].
      rewrite (Hget k out (or_introl eq_refl)).
      now rewrite (again k s (or_introl eq_refl) _ _ Hrun).
    + intros [= _ Hnone]. exfalso.
      apply issues_empty in Hnone.
      apply (run_issues_nonempty s _ _ Hrun). tauto.
Qed.
End RunAgain.

Lemma run_items_again item :
  (forall x out, run item x = Typed out -> run item out = Typed out) ->
  forall items i outs,
    run_items run item i items = Some (outs, []) ->
    forall j, run_items run item j outs = Some (outs, []).
Proof.
  intros again. induction items as [| x rest IH]; intros i outs; simpl.
  - intros [= <-] j. reflexivity.
  - destruct (run item x) as [out | found |] eqn:Hrun; [| | discriminate];
      destruct (run_items run item (S i) rest) as [[outs' issues'] |]
        eqn:Hrest; try discriminate.
    + intros [= <- ->] j. simpl.
      rewrite (IH (S i) outs' Hrest (S j)).
      now rewrite (again _ _ Hrun).
    + intros [= _ Hnone]. exfalso.
      apply issues_empty in Hnone.
      apply (run_issues_nonempty item _ _ Hrun). tauto.
Qed.

Lemma filter_others (p : string * value -> bool) outs l :
  (forall kx, In kx outs -> p kx = false) ->
  filter p (outs ++ filter p l) = filter p l.
Proof.
  intros Hout. rewrite filter_app.
  assert (filter p outs = []) as ->.
  { induction outs as [| kx rest IH]; simpl; [reflexivity |].
    rewrite (Hout kx (or_introl eq_refl)).
    apply IH. intros kx' Hin. apply Hout. now right. }
  simpl. induction l as [| kx rest IH]; simpl; [reflexivity |].
  destruct (p kx) eqn:E; simpl; [rewrite E; now f_equal | exact IH].
Qed.

Lemma distinct_entries_object entries :
  distinct_keys [] (map fst entries)
  && forallb (fun e => distinct_entries (snd e)) entries = true ->
  NoDup (map fst entries)
  /\ forall k s, In (k, s) entries -> distinct_entries s = true.
Proof.
  rewrite andb_true_iff. intros [Hd Hall]. split.
  - apply (distinct_keys_NoDup _ _ Hd).
  - intros k s Hin. rewrite forallb_forall in Hall. apply (Hall (k, s) Hin).
Qed.

(** A typed output is typed again, unchanged, by the same schema. *)
Lemma run_output_fixed s :
  distinct_entries s = true ->
  forall x out, run s x = Typed out -> run s out = Typed out.
Proof.
  induction s as [lo hi | | | w IH | item IH | entries IH | entries IH]
    using Schema_induction; intros Hd x out.
  - simpl. destruct x; try discriminate. intros H.
    destruct (settle_Typed _ _ _ H) as [Hnone ->]. simpl.
    now rewrite Hnone.
  - simpl. destruct x; try discriminate. now intros [= <-].
  - simpl.
    destruct x as [| | | [| z] | | |]; try discriminate. now intros [= <-].
  - simpl.
    destruct x; try (intros H; pose proof (IH Hd _ _ H) as H';
                     destruct out; try exact H'; reflexivity).
    now intros [= <-].
  - rewrite run_array. destruct x; try discriminate.
    intros H. destruct (collect_Typed _ _ _ _ H) as [outs [Hitems ->]].
    rewrite run_array.
    now rewrite (run_items_again item (IH Hd) items 0%nat outs Hitems 0%nat).
  - rewrite run_object.
    destruct (is_object_like x); [| discriminate].
    destruct (has_prototype entries) eqn:Hproto; [discriminate |].
    intros H. destruct (collect_Typed _ _ _ _ H) as [outs [Hentries ->]].
    simpl in Hd. destruct (distinct_entries_object entries Hd)
      as [Hnd Hchildren].
    destruct (run_entries_again entries
                (fun k s Hin => IH k s Hin (Hchildren k s Hin))
                x outs Hentries) as [Hkeys Hdoc].
    rewrite run_object, Hproto. simpl.
    rewrite (Hdoc (VObj outs)); [reflexivity |].
    intros k o Hin. simpl. apply assoc_In; [now rewrite Hkeys | exact Hin].
  - rewrite run_looseObject.
    destruct (is_object_like x); [| discriminate].
    destruct (has_prototype entries) eqn:Hproto; [discriminate |].
    intros H. destruct (collect_Typed _ _ _ _ H) as [outs [Hentries ->]].
    simpl in Hd. destruct (distinct_entries_object entries Hd)
      as [Hnd Hchildren].
    destruct (run_entries_again entries
                (fun k s Hin => IH k s Hin (Hchildren k s Hin))
                x outs Hentries) as [Hkeys Hdoc].
    rewrite run_looseObject, Hproto.
    cbn [is_object_like]. rewrite Hdoc.
    + unfold loose_rest at 1. cbn [own_keys collect settle].
      unfold loose_rest. rewrite filter_others; [reflexivity |].
      intros [k o] Hin. simpl. apply andb_false_iff. right.
      apply negb_false_iff. unfold in_entries. apply orb_true_iff. left.
      apply existsb_exists.
      assert (In k (map fst entries)) as Hk.
      { rewrite <- Hkeys. apply in_map_iff. now exists (k, o). }
      apply in_map_iff in Hk. destruct Hk as [e [He Hine]].
      exists e. split; [exact Hine | rewrite He; apply String.eqb_refl].
    + intros k o Hin. simpl.
      apply assoc_app_In; [now rewrite Hkeys | exact Hin].
Qed.

(** X4: validation is a round trip on its own output.  For a schema whose
    object entries have distinct keys, what [parse] returns for an input is
    accepted by the same schema and returned unchanged: unknown keys are
    already gone and nothing is rewritten twice. *)
Theorem validated_output_revalidates
    (schema : Schema) (input output : value) :
  distinct_entries schema = true ->
  parse schema input = Returns output ->
  parse schema output = Returns output.
Proof.
  intros Hd. unfold parse.
  destruct (run schema input) as [out | issues |] eqn:Hin;
    [| discriminate | discriminate].
  intros [= <-]. now rewrite (run_output_fixed schema Hd input out Hin).
Qed.

Lemma validated_output_revalidates_witness :
  let schema := object [("name", nullable (string_ None None));
                        ("tags", array (nullable number_))] in
  let input := VObj [("extra", VBool true);
                     ("tags", VArr [VNum (Num 1); VNull]);
                     ("name", VStr "Jane")] in
  let output := VObj [("name", VStr "Jane");
                      ("tags", VArr [VNum (Num 1); VNull])] in
  distinct_entries schema = true
  /\ parse schema input = Returns output
  /\ parse schema output = Returns output.
Proof.
  intros schema input output.
  split; [reflexivity | split; [reflexivity |]].
  apply (validated_output_revalidates schema input output); reflexivity.
Defined.

Lemma NoDup_filter_keys (p : string -> bool) keys_ :
  NoDup keys_ -> NoDup (filter p keys_).
Proof.
  induction 1 as [| k rest Hout Hnd IH]; simpl; [constructor |].
  destruct (p k); [| exact IH].
  constructor; [| exact IH].
  intros Hin. apply filter_In in Hin. tauto.
Qed.

(** The schema of a plain template has distinct keys in every object. *)
Lemma synthesized_distinct_entries template :
  plain template = true ->
  forall schema,
    generateDynamicSchema template = Returns schema ->
    distinct_entries schema = true.
Proof.
  induction template as [| | b | n | s | items IH | fields IH]
    using value_induction; intros Hplain schema;
    try (intros [= <-]; reflexivity).
  - rewrite generateDynamicSchema_array.
    destruct items as [| first rest]; simpl index0.
    + intros [= <-]. reflexivity.
    + destruct (generateDynamicSchema first) as [item |] eqn:Hfirst; simpl;
        [| discriminate].
      intros [= <-]. simpl. simpl in Hplain. apply andb_true_iff in Hplain.
      apply (IH first (or_introl eq_refl) (proj1 Hplain) item Hfirst).
  - destruct (plain_fields fields Hplain) as [Hnd Hchildren].
    rewrite generateDynamicSchema_object.
    destruct (inferDataType (VObj fields)) as [type |]; simpl;
      [| discriminate].
    destruct (String.eqb type "object").
    + destruct (for_in_shape generateDynamicSchema fields) as [shape |]
        eqn:Hshape; simpl; [| discriminate].
      intros [= <-]. simpl.
      destruct (for_in_shape_entries fields shape Hshape) as [Hkeys Hall].
      apply andb_true_iff. split.
      * apply NoDup_distinct_keys; [| intros ? ? []].
        rewrite Hkeys. now apply NoDup_filter_keys.
      * apply forallb_forall. intros [k c] Hin.
        destruct (Hall k c Hin) as [_ [x [Hx Hgen]]].
        apply (IH k x Hx (Hchildren k x Hx) c Hgen).
    + destruct (String.eqb type "array").
      * rewrite at_property_0_index0.
        destruct (generateDynamicSchema (index0 (VObj fields)))
          as [item |] eqn:Hitem; simpl; [| discriminate].
        intros [= <-]. simpl.
        destruct (index0_object_child fields) as [Hu | Hin].
        { rewrite Hu in Hitem. injection Hitem as <-. reflexivity. }
        apply (IH _ _ Hin (Hchildren _ _ Hin) item Hitem).
      * intros [= <-]. unfold leaf_schema.
        destruct (String.eqb type "string"); [reflexivity |].
        destruct (String.eqb type "boolean"); [reflexivity |].
        destruct (String.eqb type "number"); reflexivity.
Qed.

(** X5: a document validated against the schema of a node inferred as
    object comes back with exactly the fields of the template other than
    ["type"], in the template's order: fields the template does not have
    are dropped, and none of the template's can be missing. *)
Theorem validated_fields_are_template_fields
    (fields : list (string * value)) (schema : Schema)
    (document output : value) :
  inferred (VObj fields) "object" = true ->
  generateDynamicSchema (VObj fields) = Returns schema ->
  parse schema document = Returns output ->
  exists outs,
    output = VObj outs /\ map fst outs = kept_keys fields.
Proof.
  intros Hkind Hschema.
  destruct (object_schema _ _ Hkind Hschema) as [shape [-> Hshape]].
  destruct (for_in_shape_entries fields shape (Hshape fields eq_refl))
    as [Hkeys _].
  unfold parse. rewrite run_object.
  destruct (is_object_like document); [| discriminate].
  destruct (has_prototype shape); [discriminate |].
  destruct (collect (fun outs => VObj outs) (run_entries run shape document))
    as [out | found |] eqn:Hcollect; try discriminate.
  intros [= <-].
  destruct (collect_Typed _ _ _ _ Hcollect) as [outs [Hrun ->]].
  exists outs. split; [reflexivity |].
  rewrite <- Hkeys. clear Hkeys Hshape Hschema Hcollect.
  revert outs Hrun. induction shape as [| [k s] rest IH]; intros outs; simpl.
  - now intros [= <-].
  - destruct (run s (get document k)) as [out | found |] eqn:Hs;
      [| | discriminate];
      destruct (run_entries run rest document) as [[outs' issues'] |];
      try discriminate.
    + intros [= <- ->]. simpl. f_equal. now apply IH.
    + intros [= _ Hnone]. exfalso. apply issues_empty in Hnone.
      apply (run_issues_nonempty s _ _ Hs). tauto.
Qed.

Lemma validated_fields_are_template_fields_witness :
  let fields := [("name", VStr "x"); ("type", VStr "object");
                 ("age", VNum (Num 0))] in
  let document := VObj [("age", VNull); ("comment", VStr "extra");
                        ("name", VStr "Jane")] in
  inferred (VObj fields) "object" = true
  /\ exists schema output outs,
       generateDynamicSchema (VObj fields) = Returns schema
       /\ parse schema document = Returns output
       /\ output = VObj outs /\ map fst outs = ["name"; "age"].
Proof.
  intros fields document. split; [reflexivity |].
  exists (object [("name", nullable (string_ None None));
                  ("age", nullable number_)]),
    (VObj [("name", VStr "Jane"); ("age", VNull)]).
  destruct (validated_fields_are_template_fields fields
              (object [("name", nullable (string_ None None));
                       ("age", nullable number_)])
              document (VObj [("name", VStr "Jane"); ("age", VNull)])
              eq_refl eq_refl eq_refl) as [outs [Hout Hkeys]].
  exists outs. repeat split; assumption.
Defined.

(** ** The retry driver: exhausted and enlarged budgets *)

Section RetryBudget.
Variables (State T : Type) (console_error : exn -> State -> State).
Variable executor : PromiseExecutor State T.

Lemma retry_rejecting_runs :
  (forall s, is_rejected (snd (executor s)) = true) ->
  forall (k : nat) (n : Z) runs s,
    Z.to_nat n = k ->
    exists more,
      let r := retry (recording_error console_error) n (recording executor)
                 (runs, s) in
      fst (fst r) = (runs ++ more)%list
      /\ List.length more = S k
      /\ forallb (@is_rejected T) more = true
      /\ is_rejected (snd r) = true.
Proof.
  intros Hrej. induction k as [| k IH]; intros n runs s Hk; cbv zeta;
    destruct (executor s) as [s1 end_] eqn:Hrun;
    pose proof (Hrej s) as Hend; rewrite Hrun in Hend; simpl in Hend;
    destruct end_ as [result | error_ |]; try discriminate;
    rewrite retry_step, (recording_run State T executor runs s s1 _ Hrun).
  - destruct (Z.gtb_spec n 0) as [Hgt | Hle]; [lia |].
    exists [Rejected error_]. simpl. repeat split.
  - destruct (Z.gtb_spec n 0) as [Hgt | Hle]; [| lia].
    change (recording_error console_error error_
              ((runs ++ [Rejected error_])%list, s1))
      with ((runs ++ [Rejected error_])%list, console_error error_ s1).
    destruct (IH (n - 1) (runs ++ [Rejected error_])%list
                (console_error error_ s1)) as [more [Hruns [Hlen [Hall Hout]]]];
      [lia |].
    exists (Rejected error_ :: more). cbv zeta in *.
    rewrite Hruns, <- app_assoc. simpl. rewrite Hlen.
    repeat split; assumption.
Qed.
End RetryBudget.

(** X6: when every run of the executor is rejected, [retry(n, executor)]
    runs it exactly [max(n, 0) + 1] times, each run rejected, and ends
    rejected: a negative budget behaves like no budget, one run. *)
Theorem retry_exhausts_budget
    (State T : Type) (console_error : exn -> State -> State)
    (executor : PromiseExecutor State T) (n : Z) (s : State) :
  (forall s0, is_rejected (snd (executor s0)) = true) ->
  let r := retry (recording_error console_error) n (recording executor)
             ([], s) in
  Z.of_nat (List.length (fst (fst r))) = Z.max n 0 + 1
  /\ forallb (@is_rejected T) (fst (fst r)) = true
  /\ is_rejected (snd r) = true.
Proof.
  intros Hrej.
  destruct (retry_rejecting_runs State T console_error executor Hrej
              (Z.to_nat n) n [] s eq_refl) as [more H].
  cbv zeta in *. destruct H as [Hruns [Hlen [Hall Hout]]].
  rewrite Hruns. simpl. rewrite Hlen.
  repeat split; try assumption. lia.
Qed.

(** X7: a larger budget does not change a call that ends without
    rejection: if [retry(n, executor)] resolves (or stays pending), then
    [retry(n + m, executor)] from the same state ends with the same result
    in the same state, for every [m >= 0]. *)
Theorem retry_budget_monotone
    (State T : Type) (console_error : exn -> State -> State)
    (executor : PromiseExecutor State T) (n m : Z) (s s' : State)
    (end_ : settlement T) :
  0 <= m ->
  is_rejected end_ = false ->
  retry console_error n executor s = (s', end_) ->
  retry console_error (n + m) executor s = (s', end_).
Proof.
  intros Hm Hend.
  remember (Z.to_nat n) as k eqn:Hk. revert n s Hk.
  induction k as [| k IH]; intros n s Hk;
    rewrite !retry_step;
    destruct (executor s) as [s1 [result | error_ |]]; try (intros H; exact H).
  - destruct (Z.gtb_spec n 0) as [Hgt | Hle]; [lia |].
    intros [= <- <-]. discriminate.
  - destruct (Z.gtb_spec n 0) as [Hgt | Hle];
      [| intros [= <- <-]; discriminate].
    destruct (Z.gtb_spec (n + m) 0) as [_ | Hle]; [| lia].
    replace (n + m - 1) with (n - 1 + m) by lia.
    apply IH. lia.
Qed.

Lemma retry_exhausts_budget_witness :
  (forall s0, is_rejected (snd (always_failing s0)) = true)
  /\ List.length
       (fst (fst (retry (recording_error Sample.no_log) 2
                    (recording always_failing) ([], 0%nat)))) = 3%nat
  /\ Z.of_nat
       (List.length
          (fst (fst (retry (recording_error Sample.no_log) (-4)
                       (recording always_failing) ([], 0%nat)))))
     = Z.max (-4) 0 + 1.
Proof.
  split; [reflexivity | split; [reflexivity |]].
  apply (retry_exhausts_budget nat nat Sample.no_log always_failing (-4)
           0%nat).
  reflexivity.
Defined.

Lemma retry_budget_monotone_witness :
  0 <= 5
  /\ retry Sample.no_log 2 Sample.flaky 0%nat = (3%nat, Resolved 2%nat)
  /\ retry Sample.no_log (2 + 5) Sample.flaky 0%nat
     = (3%nat, Resolved 2%nat).
Proof.
  split; [lia | split; [reflexivity |]].
  apply (retry_budget_monotone nat nat Sample.no_log Sample.flaky 2 5
           0%nat 3%nat (Resolved 2%nat)); [lia | reflexivity | reflexivity].
Defined.

(** ** The request orchestrator: every way through the handler *)

Lemma parse_apiToken header :
  (valid_api_key header /\ parse apiTokenSchema header = Returns header)
  \/ (~ valid_api_key header
      /\ exists e, parse apiTokenSchema header = Throws e).
Proof.
  destruct header as [| | b | n | s | items | fields];
    try (right; split; [intros [s' [H _]]; discriminate
                       | eexists; reflexivity]).
  unfold parse, apiTokenSchema. cbn [run violates].
  destruct (Nat.leb_spec 24 (String.length s)) as [Hlo | Hlo];
    destruct (Nat.leb_spec (String.length s) 32) as [Hhi | Hhi];
    cbn [negb app settle].
  - left. split; [exists s; split; [reflexivity | lia] | reflexivity].
  - right. split; [intros [s' [[= <-] H]]; lia | eexists; reflexivity].
  - right. split; [intros [s' [[= <-] H]]; lia | eexists; reflexivity].
  - right. split; [intros [s' [[= <-] H]]; lia | eexists; reflexivity].
Qed.

(** The handler takes one of the ways listed by [handled]. *)
Lemma post_v1_handled ext ctx w : handled ext ctx w (post_v1 ext ctx w).
Proof.
  destruct (parse_apiToken (header_X_API_KEY ctx))
    as [[Hvalid Hparse] | [Hinvalid [e Hparse]]].
  2:{ unfold post_v1, handler, try_catch, bind, eval. rewrite Hparse.
      now apply handled_bad_header. }
  destruct Hvalid as [s [Hheader Hlen]].
  assert (valid_api_key (header_X_API_KEY ctx)) as Hvalid
    by (now exists s).
  destruct (select_key s w) as [keyRow |] eqn:Hrow.
  2:{ unfold post_v1, handler, try_catch, bind, eval, query.
      rewrite Hparse, Hheader. cbn [text_of]. rewrite Hrow.
      eapply handled_unknown_key; eassumption. }
  destruct (select_tokens (key_user_id keyRow) w) as [tokensRow |] eqn:Hcred.
  2:{ unfold post_v1, handler, try_catch, bind, eval, query.
      rewrite Hparse, Hheader. cbn [text_of]. rewrite Hrow, Hcred.
      eapply handled_no_credit_record; eassumption. }
  assert (authenticated ctx w (key_user_id keyRow) (credits tokensRow))
    as Hauth.
  { exists (VStr s), keyRow, tokensRow. cbn [text_of].
    repeat split; try assumption. rewrite Hparse. now f_equal. }
  rewrite (post_v1_authenticated ext ctx w _ _ Hauth).
  destruct (req_json ctx) as [body | e] eqn:Hjson.
  2:{ unfold metered, bind, eval. rewrite Hjson.
      eapply handled_bad_body; [exact Hauth | now rewrite Hjson]. }
  destruct (parse payloadSchema body) as [payload | e] eqn:Hpayload.
  2:{ unfold metered, bind, eval. rewrite Hjson, Hpayload.
      eapply handled_bad_body; [exact Hauth | rewrite Hjson; exact Hpayload]. }
  assert (body_parses ctx payload) as Hbody by (now exists body).
  rewrite (metered_body_parses ext _ _ ctx payload w Hbody). cbv zeta.
  destruct (enough_credits (credits tokensRow)
              (GPTTokens_usedTokens ext (prospective ext payload)))
    eqn:Hgate.
  2:{ eapply handled_denied; eassumption. }
  unfold fulfil, bind, eval, await, effect, return_.
  destruct (generateDynamicSchema (get payload "format"))
    as [dynamicSchema | e] eqn:Hschema.
  2:{ eapply handled_no_schema; eassumption. }
  destruct (generation ext (prospective ext payload) dynamicSchema
              (console_log
                 (LogEstimate (credits tokensRow)
                    (GPTTokens_usedTokens ext (prospective ext payload))) w))
    as [w2 end_] eqn:Hgen.
  pose proof (@handled_generated ext ctx w (key_user_id keyRow)
                (credits tokensRow) payload dynamicSchema w2 end_
                Hauth Hbody Hgate Hschema Hgen) as H.
  destruct end_ as [done | e |]; exact H.
Qed.

Lemma authenticated_valid_key ctx w user_id balance :
  authenticated ctx w user_id balance ->
  valid_api_key (header_X_API_KEY ctx)
  /\ exists s keyRow tokensRow,
       header_X_API_KEY ctx = VStr s
       /\ select_key s w = Some keyRow
       /\ select_tokens (key_user_id keyRow) w = Some tokensRow
       /\ user_id = key_user_id keyRow
       /\ balance = credits tokensRow.
Proof.
  intros [apiToken [keyRow [tokensRow [Hparse [Hrow [Hcred [Hu Hb]]]]]]].
  destruct (parse_apiToken (header_X_API_KEY ctx))
    as [[Hvalid Hp] | [_ [e Hp]]]; [| congruence].
  split; [exact Hvalid |].
  destruct Hvalid as [s [Hheader _]].
  rewrite Hp in Hparse. injection Hparse as <-.
  rewrite Hheader in Hrow. simpl in Hrow.
  exists s, keyRow, tokensRow. repeat split; assumption.
Qed.

(** What a run of [generation] leaves behind, however it ends: one or two
    requests to the generator, all the same, and no table touched. *)
Lemma generation_frame ext config dynamicSchema w w2 end_ :
  generation ext config dynamicSchema w = (w2, end_) ->
  keys w2 = keys w /\ tokens w2 = tokens w /\ tokens_used w2 = tokens_used w
  /\ exists attempts : nat,
       (attempts = 1 \/ attempts = 2)%nat
       /\ openai_requests w2
          = (openai_requests w ++ repeat config attempts)%list
       /\ (is_rejected end_ = true -> attempts = 2%nat).
Proof.
  unfold generation. rewrite retry_step.
  destruct (executor_sends ext config dynamicSchema w 0)
    as [t1 [end1 [Hrun1 _]]].
  rewrite Hrun1.
  assert (forall w3 (end3 : settlement (value * Z)),
            w3 = send_request config w -> is_rejected end3 = false ->
            keys w3 = keys w /\ tokens w3 = tokens w
            /\ tokens_used w3 = tokens_used w
            /\ exists attempts : nat,
                 (attempts = 1 \/ attempts = 2)%nat
                 /\ openai_requests w3
                    = (openai_requests w ++ repeat config attempts)%list
                 /\ (is_rejected end3 = true -> attempts = 2%nat)) as Hone.
  { intros w3 end3 -> Hend. do 3 (split; [reflexivity |]).
    exists 1%nat. split; [now left |]. split; [reflexivity | congruence]. }
  destruct end1 as [result1 | error1 |].
  - intros [= <- <-]. now apply Hone.
  - change (1 >? 0) with true. cbv iota. change (1 - 1) with 0.
    unfold log_retry at 2. cbv [fst snd].
    rewrite retry_step.
    destruct (executor_sends ext config dynamicSchema
                (console_log (LogRetry error1) (send_request config w)) t1)
      as [t2 [end2 [Hrun2 _]]].
    rewrite Hrun2.
    assert (forall w3 (end3 : settlement (value * Z)),
              w3 = send_request config
                     (console_log (LogRetry error1) (send_request config w))
              \/ (exists e2,
                    w3 = console_log (LogRetry e2)
                           (send_request config
                              (console_log (LogRetry error1)
                                 (send_request config w)))) ->
              keys w3 = keys w /\ tokens w3 = tokens w
              /\ tokens_used w3 = tokens_used w
              /\ exists attempts : nat,
                   (attempts = 1 \/ attempts = 2)%nat
                   /\ openai_requests w3
                      = (openai_requests w ++ repeat config attempts)%list
                   /\ (is_rejected end3 = true -> attempts = 2%nat)) as Htwo.
    { intros w3 end3 Hw3.
      do 3 (split; [now destruct Hw3 as [-> | [e2 ->]] |]).
      exists 2%nat. split; [now right |]. split; [| reflexivity].
      destruct Hw3 as [-> | [e2 ->]]; simpl; now rewrite <- app_assoc. }
    destruct end2 as [result2 | error2 |].
    + intros [= <- <-]. apply Htwo. left. reflexivity.
    + change (0 >? 0) with false. cbv iota.
      unfold log_retry. cbv [fst snd]. intros [= <- <-].
      apply Htwo. right. now exists error2.
    + intros [= <- <-]. apply Htwo. left. reflexivity.
  - intros [= <- <-]. now apply Hone.
Qed.

Lemma single_exactly_one (A : Type) (rows : list A) :
  List.length rows <> 1%nat -> single rows = None.
Proof.
  destruct rows as [| r [| r' more]]; simpl; intros H;
    [reflexivity | contradiction | reflexivity].
Qed.

Lemma handler_valid_key ext ctx w s :
  header_X_API_KEY ctx = VStr s ->
  (24 <= String.length s <= 32)%nat ->
  handler ext ctx w =
  try_catch
    (try_catch
       (bind (query (select_key s))
          (fun apiKeyRecord =>
             match apiKeyRecord with
             | None => return_ (json_error invalid_key_message 401)
             | Some apiKeyRecord =>
                 bind (query (select_tokens (key_user_id apiKeyRecord)))
                   (fun creditsAvailable =>
                      match creditsAvailable with
                      | None =>
                          return_ (json_error no_subscription_message 401)
                      | Some row =>
                          try_catch
                            (metered ext (key_user_id apiKeyRecord)
                               (credits row) ctx)
                            (fun _ => pure tt)
                      end)
             end))
       (fun error_ =>
          match error_ with
          | ValiError issues =>
              return_ {| status := 400;
                         error := ErrorIssues (issue_map issues);
                         data := VNull; tokensUsed := None |}
          | _ => eval (Throws TypeError)
          end))
    (fun _ => return_ (json_error header_not_found_message 401)) w.
Proof.
  intros Hheader Hlen.
  destruct (parse_apiToken (header_X_API_KEY ctx))
    as [[_ Hparse] | [Hinvalid _]].
  - unfold handler, try_catch at 1 3, bind at 1, eval at 1.
    rewrite Hparse, Hheader. reflexivity.
  - exfalso. apply Hinvalid. now exists s.
Qed.

(** X8: the handler answers 401 "X-API-KEY header not found!" exactly when
    the header is absent or is not a string of 24 to 32 characters, and it
    then leaves the store untouched; with a well-formed key it never gives
    that answer. *)
Theorem header_not_found_iff (ext : External) (ctx : Request) (w : Store) :
  (~ valid_api_key (header_X_API_KEY ctx) ->
   post_v1 ext ctx w
   = (w, Responded (json_error header_not_found_message 401)))
  /\ (valid_api_key (header_X_API_KEY ctx) ->
      snd (post_v1 ext ctx w)
      <> Responded (json_error header_not_found_message 401)).
Proof.
  split.
  - intros Hinvalid.
    destruct (parse_apiToken (header_X_API_KEY ctx))
      as [[Hvalid _] | [_ [e Hparse]]]; [contradiction |].
    unfold post_v1, handler, try_catch, bind, eval. now rewrite Hparse.
  - intros Hvalid.
    destruct (post_v1_handled ext ctx w)
      as [Hbad | | | | | | ? ? ? ? ? end_]; simpl;
      try contradiction; try discriminate.
    destruct end_ as [done | e |]; simpl; discriminate.
Qed.

Lemma header_not_found_iff_witness :
  let ext := Sample.ext 100 [] in
  let no_header := {| header_X_API_KEY := VUndefined;
                      req_json := Returns Sample.good_body |} in
  let short_key := {| header_X_API_KEY := VStr "too-short";
                      req_json := Returns Sample.good_body |} in
  post_v1 ext no_header (Sample.store 500)
  = (Sample.store 500, Responded (json_error header_not_found_message 401))
  /\ post_v1 ext short_key (Sample.store 500)
     = (Sample.store 500,
        Responded (json_error header_not_found_message 401)).
Proof.
  intros ext no_header short_key. split.
  - apply (header_not_found_iff ext no_header (Sample.store 500)).
    intros [s [H _]]. discriminate.
  - apply (header_not_found_iff ext short_key (Sample.store 500)).
    intros [s [[= <-] H]]. simpl in H. lia.
Defined.

(** X9: with a well-formed key that matches no row of [keys], or more
    than one, the handler answers 401 "Invalid API Key" and leaves the
    store untouched, whatever the body is. *)
Theorem unknown_key_unauthorized
    (ext : External) (ctx : Request) (w : Store) (s : string) :
  header_X_API_KEY ctx = VStr s ->
  (24 <= String.length s <= 32)%nat ->
  List.length (filter (fun r => String.eqb (key r) s) (keys w)) <> 1%nat ->
  post_v1 ext ctx w = (w, Responded (json_error invalid_key_message 401)).
Proof.
  intros Hheader Hlen Hrows.
  unfold post_v1. rewrite (handler_valid_key ext ctx w s Hheader Hlen).
  unfold try_catch, bind, query, select_key.
  now rewrite (single_exactly_one _ _ Hrows).
Qed.

Lemma unknown_key_unauthorized_witness :
  let ext := Sample.ext 100 [] in
  let ctx := {| header_X_API_KEY := VStr "k999999999999999999999999";
                req_json := Returns Sample.good_body |} in
  post_v1 ext ctx (Sample.store 500)
  = (Sample.store 500, Responded (json_error invalid_key_message 401)).
Proof.
  intros ext ctx.
  apply (unknown_key_unauthorized ext ctx (Sample.store 500)
           "k999999999999999999999999"); [reflexivity | simpl; lia |].
  simpl. lia.
Defined.

(** X10: with a known key whose caller has no row in [tokens] (or more
    than one), the handler answers 401 with the subscription message and
    leaves the store untouched. *)
Theorem no_credit_record_unauthorized
    (ext : External) (ctx : Request) (w : Store) (s : string)
    (keyRow : KeyRow) :
  header_X_API_KEY ctx = VStr s ->
  (24 <= String.length s <= 32)%nat ->
  select_key s w = Some keyRow ->
  List.length (filter (fun r => String.eqb (tokens_user_id r)
                                  (key_user_id keyRow)) (tokens w))
  <> 1%nat ->
  post_v1 ext ctx w
  = (w, Responded (json_error no_subscription_message 401)).
Proof.
  intros Hheader Hlen Hrow Hrows.
  unfold post_v1. rewrite (handler_valid_key ext ctx w s Hheader Hlen).
  unfold try_catch, bind, query. rewrite Hrow.
  unfold select_tokens. now rewrite (single_exactly_one _ _ Hrows).
Qed.

Lemma no_credit_record_unauthorized_witness :
  let ext := Sample.ext 100 [] in
  let w := {| keys := keys (Sample.store 500); tokens := [];
              tokens_used := []; openai_requests := []; console := [] |} in
  post_v1 ext (Sample.request Sample.good_body) w
  = (w, Responded (json_error no_subscription_message 401)).
Proof.
  intros ext w.
  apply (no_credit_record_unauthorized ext (Sample.request Sample.good_body)
           w Sample.api_key
           {| key := Sample.api_key; key_user_id := "user-1" |});
    [reflexivity | simpl; lia | reflexivity | simpl; lia].
Defined.

(** X11: when the request passes the credit check and both answers of the
    generator are rejected (by [JSON.parse] or by the schema), the handler
    ends without a response after exactly two requests; both errors have
    been logged, no usage row is written and no balance changed. *)
Theorem exhausted_retries_no_response
    (ext : External) (ctx : Request) (w : Store) (user_id : string)
    (balance : number) (payload : value) (dynamicSchema : Schema)
    (e1 e2 : exn) :
  authenticated ctx w user_id balance ->
  body_parses ctx payload ->
  enough_credits balance
    (GPTTokens_usedTokens ext (prospective ext payload)) = true ->
  generateDynamicSchema (get payload "format") = Returns dynamicSchema ->
  answer_rejected ext (prospective ext payload) dynamicSchema
    (List.length (openai_requests w)) e1 ->
  answer_rejected ext (prospective ext payload) dynamicSchema
    (S (List.length (openai_requests w))) e2 ->
  snd (post_v1 ext ctx w) = NoResponse
  /\ openai_requests (fst (post_v1 ext ctx w))
     = (openai_requests w
        ++ [prospective ext payload; prospective ext payload])%list
  /\ console (fst (post_v1 ext ctx w))
     = (console w
        ++ [LogEstimate balance
              (GPTTokens_usedTokens ext (prospective ext payload));
            LogRetry e1; LogRetry e2])%list
  /\ tokens_used (fst (post_v1 ext ctx w)) = tokens_used w
  /\ tokens (fst (post_v1 ext ctx w)) = tokens w.
Proof.
  intros Hauth Hbody Hgate Hschema Hfirst Hsecond.
  set (config := prospective ext payload) in *.
  set (w0 := console_log
               (LogEstimate balance (GPTTokens_usedTokens ext config)) w).
  assert (post_v1 ext ctx w
          = (console_log (LogRetry e2)
               (send_request config
                  (console_log (LogRetry e1) (send_request config w0))),
             NoResponse)) as Hpost.
  { rewrite (post_v1_authenticated ext ctx w user_id balance Hauth).
    rewrite (metered_body_parses ext user_id balance ctx payload w Hbody).
    cbv zeta. fold config. rewrite Hgate. fold w0.
    unfold fulfil, bind, eval, await. rewrite Hschema.
    unfold generation. rewrite retry_step.
    destruct (executor_rejects ext config dynamicSchema w0 0 e1 Hfirst)
      as [t1 Hrun1].
    rewrite Hrun1. change (1 >? 0) with true. cbv iota.
    change (1 - 1) with 0. unfold log_retry at 2. cbv [fst snd].
    rewrite retry_step.
    destruct (executor_rejects ext config dynamicSchema
                (console_log (LogRetry e1) (send_request config w0)) t1 e2)
      as [t2 Hrun2].
    { simpl. rewrite length_app, Nat.add_1_r. exact Hsecond. }
    rewrite Hrun2. change (0 >? 0) with false. cbv iota.
    unfold log_retry. cbv [fst snd]. reflexivity. }
  rewrite Hpost. simpl. rewrite <- !app_assoc. repeat split.
Qed.

Lemma exhausted_retries_no_response_witness :
  let ext := Sample.ext 100 [Sample.answers Sample.text_wrong 7;
                             Sample.answers Sample.text_sorry 5] in
  let end_ := post_v1 ext (Sample.request Sample.good_body)
                (Sample.store 500) in
  snd end_ = NoResponse
  /\ List.length (openai_requests (fst end_)) = 2%nat
  /\ tokens_used (fst end_) = [].
Proof.
  intros ext end_.
  destruct (exhausted_retries_no_response ext
              (Sample.request Sample.good_body) (Sample.store 500)
              "user-1" (Num 500) Sample.good_body
              (object [("name", nullable (string_ None None))])
              (ValiError [Issue (Some (KeyName "name")) "string"
                            (VNum (Num 1))])
              SyntaxError
              ltac:(sample_premise) ltac:(sample_premise)
              ltac:(reflexivity) ltac:(reflexivity)
              ltac:(do 3 eexists; repeat split; reflexivity)
              ltac:(do 3 eexists; repeat split; reflexivity))
    as [Hreply [Hreq [_ [Hused _]]]].
  split; [exact Hreply | split; [| exact Hused]].
  unfold end_. now rewrite Hreq.
Defined.

(** X12: a swallowed synthesis error.  When the request passes the credit
    check and the synthesizer throws on the template, the handler ends
    without a response: the estimate has been logged, no request was sent
    to the generator and no table was touched. *)
Theorem synthesis_error_no_response
    (ext : External) (ctx : Request) (w : Store) (user_id : string)
    (balance : number) (payload : value) (e : exn) :
  authenticated ctx w user_id balance ->
  body_parses ctx payload ->
  enough_credits balance
    (GPTTokens_usedTokens ext (prospective ext payload)) = true ->
  generateDynamicSchema (get payload "format") = Throws e ->
  post_v1 ext ctx w
  = (console_log
       (LogEstimate balance
          (GPTTokens_usedTokens ext (prospective ext payload))) w,
     NoResponse).
Proof.
  intros Hauth Hbody Hgate Hschema.
  rewrite (post_v1_authenticated ext ctx w user_id balance Hauth).
  rewrite (metered_body_parses ext user_id balance ctx payload w Hbody).
  cbv zeta. rewrite Hgate.
  unfold fulfil, bind, eval. now rewrite Hschema.
Qed.

Lemma synthesis_error_no_response_witness :
  let ext := Sample.ext 100 [Sample.answers Sample.text_jane 7] in
  let body := VObj [("input", VStr "Jane");
                    ("format",
                     VObj [("user", VObj [("hasOwnProperty", VStr "x")])])] in
  parse payloadSchema body = Returns body
  /\ generateDynamicSchema (get body "format") = Throws TypeError
  /\ post_v1 ext (Sample.request body) (Sample.store 500)
     = (console_log (LogEstimate (Num 500) 100) (Sample.store 500),
        NoResponse).
Proof.
  intros ext body. split; [reflexivity | split; [reflexivity |]].
  apply (synthesis_error_no_response ext (Sample.request body)
           (Sample.store 500) "user-1" (Num 500) body TypeError);
    sample_premise.
Defined.

(** X13: a body that is not JSON.  When [ctx.req.json()] throws for an
    authenticated caller, the error is swallowed like every other in the
    innermost [try]: no response, and the store is untouched. *)
Theorem unparsable_body_no_response
    (ext : External) (ctx : Request) (w : Store) (user_id : string)
    (balance : number) (e : exn) :
  authenticated ctx w user_id balance ->
  req_json ctx = Throws e ->
  post_v1 ext ctx w = (w, NoResponse).
Proof.
  intros Hauth Hjson.
  rewrite (post_v1_authenticated ext ctx w user_id balance Hauth).
  unfold metered, bind, eval. now rewrite Hjson.
Qed.

Lemma unparsable_body_no_response_witness :
  let ext := Sample.ext 100 [Sample.answers Sample.text_jane 7] in
  let ctx := {| header_X_API_KEY := VStr Sample.api_key;
                req_json := Throws SyntaxError |} in
  post_v1 ext ctx (Sample.store 500) = (Sample.store 500, NoResponse).
Proof.
  intros ext ctx.
  apply (unparsable_body_no_response ext ctx (Sample.store 500) "user-1"
           (Num 500) SyntaxError); sample_premise.
Defined.

(** X14: a credit value that is not a number denies.  When unary plus
    makes [NaN] of the stored credits, the comparison is false and the
    request is answered 401 "Not enough credits" without any request to
    the generator. *)
Theorem nan_credits_denied
    (ext : External) (ctx : Request) (w : Store) (user_id : string)
    (payload : value) :
  authenticated ctx w user_id NaN ->
  body_parses ctx payload ->
  snd (post_v1 ext ctx w)
  = Responded (json_error not_enough_credits_message 401)
  /\ openai_requests (fst (post_v1 ext ctx w)) = openai_requests w.
Proof.
  intros Hauth Hbody.
  rewrite (post_v1_authenticated ext ctx w user_id NaN Hauth).
  rewrite (metered_body_parses ext user_id NaN ctx payload w Hbody).
  cbv zeta. split; reflexivity.
Qed.

Lemma nan_credits_denied_witness :
  let ext := Sample.ext 100 [Sample.answers Sample.text_jane 7] in
  let w := {| keys := keys (Sample.store 500);
              tokens := [ {| tokens_user_id := "user-1"; credits := NaN |} ];
              tokens_used := []; openai_requests := []; console := [] |} in
  snd (post_v1 ext (Sample.request Sample.good_body) w)
  = Responded (json_error not_enough_credits_message 401).
Proof.
  intros ext w.
  apply (nan_credits_denied ext (Sample.request Sample.good_body) w
           "user-1" Sample.good_body); sample_premise.
Defined.

(** X15: on success the caller's balance is decremented by the tokens
    used.  When the handler answers 200 with [tokensUsed = total], every
    row of [tokens] of the caller holds the balance read at the start
    minus [total] (it may be negative), every other row is as before, and
    [keys] is unchanged. *)
Theorem success_updates_balance
    (ext : External) (ctx : Request) (w w' : Store) (response : Response) :
  post_v1 ext ctx w = (w', Responded response) ->
  status response = 200 ->
  exists user_id balance total,
    authenticated ctx w user_id balance
    /\ tokensUsed response = Some total
    /\ tokens w'
       = map (credited user_id (number_sub balance (Num total))) (tokens w)
    /\ keys w' = keys w.
Proof.
  intros Hreply Hstatus.
  pose proof (post_v1_handled ext ctx w) as H. rewrite Hreply in H.
  inversion H as [ | | | | | | user_id balance payload dynamicSchema w2 end_
                               Hauth Hbody Hgate Hschema Hgen Hend ];
    subst; try discriminate.
  destruct end_ as [[data_ total] | e |]; try discriminate.
  injection Hend as <- <-.
  destruct (generation_frame _ _ _ _ _ _ Hgen) as [Hkeys [Htokens _]].
  exists user_id, balance, total. simpl.
  repeat split; try assumption. now rewrite Htokens.
Qed.

Lemma success_updates_balance_witness :
  let ext := Sample.ext 100 [Sample.answers Sample.text_wrong 90;
                             Sample.answers Sample.text_jane 80] in
  let end_ := post_v1 ext (Sample.request Sample.good_body)
                (Sample.store 101) in
  tokens (fst end_) = [ {| tokens_user_id := "user-1"; credits := Num (-69) |} ]
  /\ exists user_id balance total,
       authenticated (Sample.request Sample.good_body) (Sample.store 101)
         user_id balance
       /\ tokens (fst end_)
          = map (credited user_id (number_sub balance (Num total)))
              (tokens (Sample.store 101)).
Proof.
  intros ext end_. split; [reflexivity |].
  destruct (success_updates_balance ext (Sample.request Sample.good_body)
              (Sample.store 101) (fst end_)
              {| status := 200; error := NoError;
                 data := VObj [("name", VStr "Jane")];
                 tokensUsed := Some 170 |} eq_refl eq_refl)
    as [user_id [balance [total [Hauth [_ [Htokens _]]]]]].
  exists user_id, balance, total. split; assumption.
Defined.

(** X16: what one request can do to the store.  Whatever the request and
    the answers of the generator, [keys] is unchanged, at most two
    requests go to the generator and they are the same request, and the
    tables [tokens_used] and [tokens] change only together with a 200
    response, [tokens_used] by exactly one row. *)
Theorem handler_frame (ext : External) (ctx : Request) (w : Store) :
  let w' := fst (post_v1 ext ctx w) in
  keys w' = keys w
  /\ (exists (attempts : nat) config,
        (attempts <= 2)%nat
        /\ openai_requests w'
           = (openai_requests w ++ repeat config attempts)%list)
  /\ ((tokens_used w' = tokens_used w /\ tokens w' = tokens w)
      \/ exists response row,
           snd (post_v1 ext ctx w) = Responded response
           /\ status response = 200
           /\ tokens_used w' = (tokens_used w ++ [row])%list).
Proof.
  assert (forall w0 : Store,
            openai_requests w0 = openai_requests w ->
            exists (attempts : nat) config,
              (attempts <= 2)%nat
              /\ openai_requests w0
                 = (openai_requests w ++ repeat config attempts)%list)
    as Hnone.
  { intros w0 ->. exists 0%nat, (prospective ext VNull).
    split; [lia | simpl; now rewrite app_nil_r]. }
  cbv zeta.
  destruct (post_v1_handled ext ctx w)
    as [| | | | | | user_id balance payload dynamicSchema w2 end_
                    Hauth Hbody Hgate Hschema Hgen];
    try (split; [reflexivity | split; [now apply Hnone | now left]]).
  destruct (generation_frame _ _ _ _ _ _ Hgen)
    as [Hkeys [Htokens [Hused [attempts [Hcount [Hreq _]]]]]].
  simpl in Hkeys, Htokens, Hused, Hreq.
  assert (exists (n : nat) config,
            (n <= 2)%nat
            /\ openai_requests w2
               = (openai_requests w ++ repeat config n)%list) as Hsent.
  { exists attempts, (prospective ext payload). split; [lia | exact Hreq]. }
  destruct end_ as [[data_ total] | e |]; simpl.
  - split; [exact Hkeys | split; [exact Hsent | right]].
    do 2 eexists. split; [reflexivity | split; [reflexivity |]].
    now rewrite Hused.
  - split; [exact Hkeys | split; [exact Hsent | now left]].
  - split; [exact Hkeys | split; [exact Hsent | now left]].
Qed.

(** X17: the data of a 200 response is a validated answer of the
    generator.  One of the at most two requests the handler sent was
    answered; [JSON.parse] read the first choice of that answer, and the
    data is what [parse] returned for it against the schema synthesized
    from the request's [format].  The template being plain data, the data
    validates against that schema again, unchanged. *)
Theorem response_data_conforms
    (ext : External) (ctx : Request) (w w' : Store) (response : Response) :
  post_v1 ext ctx w = (w', Responded response) ->
  status response = 200 ->
  exists payload dynamicSchema (n : nat) openaiResponse answer more
         jsonAnswer,
    body_parses ctx payload
    /\ generateDynamicSchema (get payload "format") = Returns dynamicSchema
    /\ (n = List.length (openai_requests w)
        \/ n = S (List.length (openai_requests w)))
    /\ nth_error (openai_requests w') n = Some (prospective ext payload)
    /\ chat_completions_create ext n (prospective ext payload)
       = Returns openaiResponse
    /\ choices openaiResponse = answer :: more
    /\ JSON_parse ext (answer_text answer) = Returns jsonAnswer
    /\ parse dynamicSchema jsonAnswer = Returns (data response)
    /\ (plain (get payload "format") = true ->
        parse dynamicSchema (data response) = Returns (data response)).
Proof.
  intros Hreply Hstatus.
  pose proof (post_v1_handled ext ctx w) as H. rewrite Hreply in H.
  inversion H as [ | | | | | | user_id balance payload dynamicSchema w2 end_
                               Hauth Hbody Hgate Hschema Hgen Hend ];
    subst; try discriminate.
  destruct end_ as [[data_ total] | e |]; try discriminate.
  injection Hend as <- <-. simpl.
  destruct (generation_resolved _ _ _ _ _ _ _ Hgen)
    as [attempts [_ [Hreq [_ [_ [_ [_ Hsucceeds]]]]]]].
  simpl in Hreq, Hsucceeds.
  assert (exists n : nat,
             (n = List.length (openai_requests w)
              \/ n = S (List.length (openai_requests w)))
             /\ nth_error (openai_requests w2) n
                = Some (prospective ext payload)
             /\ answer_accepted ext (prospective ext payload) dynamicSchema
                  n data_) as [n [Hn [Hnth Haccepted]]].
  { destruct Hsucceeds as [[-> Hacc] | [-> [_ Hacc]]];
      [exists (List.length (openai_requests w))
      | exists (S (List.length (openai_requests w)))];
      (split; [tauto | split; [| exact Hacc]]);
      rewrite Hreq, nth_error_app2 by lia.
    - now rewrite Nat.sub_diag.
    - now replace (S (List.length (openai_requests w))
                   - List.length (openai_requests w))%nat with 1%nat by lia. }
  destruct Haccepted
    as [openaiResponse [answer [more [jsonAnswer
          [Hanswer [Hchoices [Hjson Hparse]]]]]]].
  exists payload, dynamicSchema, n, openaiResponse, answer, more, jsonAnswer.
  do 8 (split; [assumption |]).
  intros Hplain. unfold parse in *.
  destruct (run dynamicSchema jsonAnswer) as [out | found |] eqn:Hrun;
    try discriminate.
  injection Hparse as ->.
  now rewrite (run_output_fixed dynamicSchema
                 (synthesized_distinct_entries _ Hplain _ Hschema)
                 jsonAnswer data_ Hrun).
Qed.

Lemma response_data_conforms_witness :
  let ext := Sample.ext 100 [Sample.answers Sample.text_jane 7] in
  let end_ := post_v1 ext (Sample.request Sample.good_body)
                (Sample.store 500) in
  exists payload dynamicSchema (n : nat) openaiResponse answer more
         jsonAnswer,
    body_parses (Sample.request Sample.good_body) payload
    /\ generateDynamicSchema (get payload "format") = Returns dynamicSchema
    /\ chat_completions_create ext n (prospective ext payload)
       = Returns openaiResponse
    /\ choices openaiResponse = answer :: more
    /\ JSON_parse ext (answer_text answer) = Returns jsonAnswer
    /\ parse dynamicSchema jsonAnswer = Returns (VObj [("name", VStr "Jane")]).
Proof.
  intros ext end_.
  destruct (response_data_conforms ext (Sample.request Sample.good_body)
              (Sample.store 500) (fst end_)
              {| status := 200; error := NoError;
                 data := VObj [("name", VStr "Jane")];
                 tokensUsed := Some 7 |} eq_refl eq_refl)
    as [payload [dynamicSchema [n [openaiResponse [answer [more [jsonAnswer
          [Hbody [Hschema [_ [_ [Hanswer [Hchoices [Hjson [Hparse _]]]]]]]]]]]]]]].
  exists payload, dynamicSchema, n, openaiResponse, answer, more, jsonAnswer.
  repeat split; assumption.
Defined.

(** ** The body schema and the error map *)

Lemma run_looseObject_empty input :
  run (looseObject []) input =
  if is_object_like input then Typed (VObj (loose_rest [] input))
  else Issues [Issue None "Object" input].
Proof.
  rewrite run_looseObject. now destruct (is_object_like input).
Qed.

Lemma existsb_In k keys_ :
  existsb (String.eqb k) keys_ = true <-> In k keys_.
Proof.
  rewrite existsb_exists. split.
  - intros [k' [Hin Heq]]. apply String.eqb_eq in Heq. now subst.
  - intros Hin. exists k. split; [exact Hin | apply String.eqb_refl].
Qed.

(** The keys [looseObject({})] lets through: those that no object
    inherits, ["prototype"] apart. *)
Lemma loose_rest_empty input k x :
  In (k, x) (loose_rest [] input)
  <-> In (k, x) (own_keys input)
      /\ ~ In k ("prototype" :: Object_prototype_names).
Proof.
  unfold loose_rest. rewrite filter_In. cbn [fst].
  assert (in_entries k [] = existsb (String.eqb k) Object_prototype_names)
    as -> by reflexivity.
  split; intros [Hin Hkey]; (split; [exact Hin |]).
  - apply andb_true_iff in Hkey. destruct Hkey as [Hvalid Hown].
    apply negb_true_iff in Hown. intros [<- | Hk]; [discriminate |].
    apply existsb_In in Hk. congruence.
  - apply andb_true_iff. split.
    + destruct (is_valid_object_key k) eqn:E; [reflexivity |].
      exfalso. apply Hkey. unfold is_valid_object_key in E.
      apply negb_false_iff in E.
      apply orb_true_iff in E. destruct E as [E | E];
        [apply orb_true_iff in E; destruct E as [E | E] |];
        apply String.eqb_eq in E; subst k; apply existsb_In; reflexivity.
    + apply negb_true_iff.
      destruct (existsb (String.eqb k) Object_prototype_names) eqn:E;
        [| reflexivity].
      exfalso. apply Hkey. right. now apply existsb_In.
Qed.

(** X18: the body schema.  [parse(payloadSchema, body)] returns exactly
    when the body is an object (or an array) whose [input] is a string and
    whose [format] is an object or an array; what it returns has these two
    fields only, and its [format] is always an object: an array given as
    [format] comes back as the object of its indices.  Of the own keys of
    [format] the result keeps, in order, those that are not named
    ["prototype"] or like a member of [Object.prototype] (["constructor"],
    ["toString"], ["hasOwnProperty"], ["__proto__"], ...), each with its
    value untouched. *)
Theorem payload_normal_form (body payload : value) :
  (parse payloadSchema body = Returns payload <->
   is_object_like body = true
   /\ exists s,
        get body "input" = VStr s
        /\ is_object_like (get body "format") = true
        /\ payload
           = VObj [("input", VStr s);
                   ("format", VObj (loose_rest [] (get body "format")))])
  /\ (forall k x,
        In (k, x) (loose_rest [] (get body "format"))
        <-> In (k, x) (own_keys (get body "format"))
            /\ ~ In k ("prototype" :: Object_prototype_names)).
Proof.
  split; [| intros k x; apply loose_rest_empty].
  unfold parse, payloadSchema. rewrite run_object.
  destruct (is_object_like body); [| split; [discriminate | intros [H _];
                                                            discriminate]].
  change (has_prototype [("input", string_ None None);
                         ("format", looseObject [])]) with false.
  cbv iota. cbn [run_entries]. rewrite run_looseObject_empty.
  destruct (is_object_like (get body "format")) eqn:Hformat;
    destruct (get body "input") as [| | b | n | s | items | fields] eqn:Hinput;
    simpl; split;
    try discriminate;
    try (intros [_ [s' [H _]]]; discriminate);
    try (intros [_ [s' [_ [H _]]]]; discriminate).
  - intros [= <-]. split; [reflexivity |]. now exists s.
  - intros [_ [s' [[= <-] [_ ->]]]]. reflexivity.
Qed.

Lemma record_set_keys key i m :
  NoDup (map fst m) ->
  NoDup (map fst (record_set key i m))
  /\ forall k, In k (map fst (record_set key i m)) ->
       k = key \/ In k (map fst m).
Proof.
  induction m as [| [k j] rest IH]; simpl; intros Hnd.
  - split; [apply NoDup_cons; [intros [] | apply NoDup_nil] |].
    intros k [<- | []]. now left.
  - inversion Hnd as [| ? ? Hout Hnd']; subst.
    destruct (String.eqb k key) eqn:E; simpl.
    + split; [exact Hnd | tauto].
    + destruct (IH Hnd') as [Hnd2 Hin]. split.
      * constructor; [| exact Hnd2].
        intros Hk. destruct (Hin k Hk) as [-> | Hk'];
          [rewrite String.eqb_refl in E; discriminate | contradiction].
      * intros k' [<- | Hk']; [tauto |].
        destruct (Hin k' Hk'); tauto.
Qed.

Lemma record_set_values key i m k j :
  In (k, j) (record_set key i m) ->
  (k = key /\ j = i) \/ In (k, j) m.
Proof.
  induction m as [| [k0 j0] rest IH]; simpl.
  - intros [[= <- <-] | []]. now left.
  - destruct (String.eqb k0 key) eqn:E; simpl.
    + apply String.eqb_eq in E. subst k0.
      intros [[= <- <-] | Hin]; [now left | right; now right].
    + intros [[= <- <-] | Hin]; [right; now left |].
      destruct (IH Hin); [now left | right; now right].
Qed.

(** X19: the error map the [catch] block builds from the issues of a
    [ValiError] has one entry per key: its keys are pairwise distinct, and
    each entry holds an issue of the error whose path starts with that
    key. *)
Theorem issue_map_one_entry_per_key (issues : list issue) :
  NoDup (map fst (issue_map issues))
  /\ forall k i, In (k, i) (issue_map issues) ->
       In i issues /\ truthy_key i = Some k.
Proof.
  unfold issue_map.
  assert (forall m,
            NoDup (map fst m) ->
            (forall k i, In (k, i) m -> truthy_key i = Some k) ->
            let m' := fold_left (fun m i => match truthy_key i with
                                            | Some k => record_set k i m
                                            | None => m
                                            end) issues m in
            NoDup (map fst m')
            /\ forall k i, In (k, i) m' ->
                 (In i issues \/ In (k, i) m) /\ truthy_key i = Some k)
    as Hfold.
  { induction issues as [| i0 rest IH]; intros m Hnd Hkeys; cbv zeta; simpl.
    - split; [exact Hnd |]. intros k i Hin. split; [now right | auto].
    - destruct (truthy_key i0) as [k0 |] eqn:Hk0.
      + destruct (IH (record_set k0 i0 m)) as [Hnd' Hin'].
        * apply (record_set_keys k0 i0 m Hnd).
        * intros k i Hin.
          destruct (record_set_values _ _ _ _ _ Hin) as [[-> ->] | Hm];
            [exact Hk0 | now apply Hkeys].
        * split; [exact Hnd' |]. intros k i Hin.
          destruct (Hin' k i Hin) as [[Hrest | Hset] Hkey];
            (split; [| exact Hkey]).
          { left. now right. }
          destruct (record_set_values _ _ _ _ _ Hset) as [[-> ->] | Hm];
            [left; now left | now right].
      + destruct (IH m Hnd Hkeys) as [Hnd' Hin'].
        split; [exact Hnd' |]. intros k i Hin.
        destruct (Hin' k i Hin) as [[Hrest | Hm] Hkey];
          (split; [| exact Hkey]); [left; now right | now right]. }
  destruct (Hfold [] (NoDup_nil _) (fun _ _ H => match H with end))
    as [Hnd Hin].
  split; [exact Hnd |]. intros k i Hi.
  destruct (Hin k i Hi) as [[H | []] Hkey]. now split.
Qed.

(** ** Markers, and a request that hangs *)

(** X20: an explicit marker decides a leaf.  An object whose ["type"] is
    ["string"], ["boolean"] or ["number"] becomes the nullable schema of
    that kind, whatever other fields it has; with any other string that is
    not ["object"] or ["array"] as marker it is read as an object, the
    schema of its remaining fields. *)
Theorem marker_decides_leaf (fields : list (string * value)) (kind : string) :
  has_key "hasOwnProperty" fields = false ->
  has_key "type" fields = true ->
  assoc "type" fields = VStr kind ->
  (In kind ["string"; "boolean"; "number"] ->
   generateDynamicSchema (VObj fields) = Returns (leaf_schema kind)
   /\ exists primitive,
        leaf_schema kind = nullable primitive
        /\ In (kind, primitive)
             [("string", string_ None None); ("boolean", boolean_);
              ("number", number_)])
  /\ (~ In kind types ->
      generateDynamicSchema (VObj fields)
      = bind_thrown (for_in_shape generateDynamicSchema fields)
          (fun shape => Returns (object shape))).
Proof.
  intros Hown Hmarked Htype.
  assert (inferDataType (VObj fields)
          = Returns (if types_includes (VStr kind) then kind else "object"))
    as Hinfer.
  { unfold inferDataType, hasOwnProperty_type. rewrite Hown. simpl.
    rewrite Hmarked. simpl. now rewrite Htype. }
  rewrite generateDynamicSchema_object, Hinfer. split.
  - intros Hkind. simpl in Hkind.
    destruct Hkind as [<- | [<- | [<- | []]]]; simpl;
      (split; [reflexivity |]); eexists; (split; [reflexivity |]);
      simpl; tauto.
  - intros Hother.
    destruct (types_includes (VStr kind)) eqn:Hin; [| reflexivity].
    exfalso. apply Hother. now apply types_includes_In.
Qed.

Lemma marker_decides_leaf_witness :
  let fields := [("type", VStr "number"); ("min", VNum (Num 0));
                 ("note", VObj [("deep", VArr [])])] in
  generateDynamicSchema (VObj fields) = Returns (nullable number_).
Proof.
  intros fields.
  apply (marker_decides_leaf fields "number" eq_refl eq_refl eq_refl).
  simpl. tauto.
Defined.

(** X21: a request that hangs.  When the request passes the credit check
    and the first call to the generator throws, the handler never settles:
    one request has been sent, nothing is retried, no response is given and
    no table is touched. *)
Theorem transport_failure_hangs_request
    (ext : External) (ctx : Request) (w : Store) (user_id : string)
    (balance : number) (payload : value) (dynamicSchema : Schema)
    (e : exn) :
  authenticated ctx w user_id balance ->
  body_parses ctx payload ->
  enough_credits balance
    (GPTTokens_usedTokens ext (prospective ext payload)) = true ->
  generateDynamicSchema (get payload "format") = Returns dynamicSchema ->
  chat_completions_create ext (List.length (openai_requests w))
    (prospective ext payload) = Throws e ->
  post_v1 ext ctx w
  = (send_request (prospective ext payload)
       (console_log
          (LogEstimate balance
             (GPTTokens_usedTokens ext (prospective ext payload))) w),
     NeverSettles).
Proof.
  intros Hauth Hbody Hgate Hschema Hthrow.
  rewrite (post_v1_authenticated ext ctx w user_id balance Hauth).
  rewrite (metered_body_parses ext user_id balance ctx payload w Hbody).
  cbv zeta. rewrite Hgate.
  unfold fulfil, bind, eval, await. rewrite Hschema.
  unfold generation. rewrite retry_step.
  unfold executor. cbn [openai_requests console_log].
  now rewrite Hthrow.
Qed.

Lemma transport_failure_hangs_request_witness :
  let ext := Sample.ext 100 [Throws APIError] in
  snd (post_v1 ext (Sample.request Sample.good_body) (Sample.store 500))
  = NeverSettles
  /\ List.length
       (openai_requests
          (fst (post_v1 ext (Sample.request Sample.good_body)
                  (Sample.store 500)))) = 1%nat.
Proof.
  intros ext.
  rewrite (transport_failure_hangs_request ext
             (Sample.request Sample.good_body) (Sample.store 500) "user-1"
             (Num 500) Sample.good_body
             (object [("name", nullable (string_ None None))]) APIError
             ltac:(sample_premise) ltac:(sample_premise)
             ltac:(reflexivity) ltac:(reflexivity) ltac:(reflexivity)).
  split; reflexivity.
Defined.

Lemma payload_normal_form_witness :
  let body := VObj [("format", VObj [("name", VStr "x");
                                     ("toString", VStr "y");
                                     ("__proto__", VObj [])]);
                    ("input", VStr "Jane"); ("debug", VBool true)] in
  parse payloadSchema body
  = Returns (VObj [("input", VStr "Jane");
                   ("format", VObj [("name", VStr "x")])]).
Proof.
  intros body.
  apply (proj1 (payload_normal_form body
                  (VObj [("input", VStr "Jane");
                         ("format", VObj [("name", VStr "x")])]))).
  split; [reflexivity |]. exists "Jane". repeat split.
Defined.

Lemma issue_map_one_entry_per_key_witness :
  let issues := [Issue (Some (KeyName "input")) "string" VUndefined;
                 Issue None "Object" VNull;
                 Issue (Some (KeyName "format")) "Object" VUndefined;
                 Issue (Some (KeyName "input")) "string" (VNum (Num 5))] in
  map fst (issue_map issues) = ["input"; "format"]
  /\ NoDup (map fst (issue_map issues)).
Proof.
  intros issues. split; [reflexivity |].
  apply (issue_map_one_entry_per_key issues).
Defined.
